(** * symquery: the command-line front end to the drsyms symbol library

    A shallow embedding of [tools/symquery.c].  The program parses its
    argument vector, initialises the external symbol library, and then
    either answers the queries given on the command line or serves
    [module;address] requests read from standard input, printing one
    record per query.

    The symbol library, the host file system and the C library are not
    part of the program: the first two are oracles collected in a record
    the whole development is parameterised by; the few C library
    routines the program calls ([_stricmp], [strcmp], [fgets], [sscanf]
    with the two formats used, [printf] with the conversions used) are
    modelled below.  Every interaction with the outside world is kept,
    in order, in a trace of events. *)

From Stdlib Require Import String Ascii List ZArith Lia Bool.
From Stdlib Require Import DecimalString HexadecimalString.
From Stdlib Require Import DecimalN HexadecimalN HexadecimalPos.
From Stdlib Require Import Btauto Permutation.
Import ListNotations.

Local Open Scope string_scope.
Local Open Scope Z_scope.

(** ** The C library routines the program relies on *)

Module Libc.

(** The two characters that cannot be written inside a string literal. *)
Definition newline : ascii := "010"%char.
Definition dquote : ascii := "034"%char.
Definition nl : string := String newline "".
Definition dq : string := String dquote "".

Definition code (c : ascii) : Z := Z.of_N (N_of_ascii c).

(** [tolower] in the C locale. *)
Definition tolower (c : ascii) : ascii :=
  if (65 <=? code c) && (code c <=? 90)
  then ascii_of_N (N_of_ascii c + 32)
  else c.

(** [strcmp]: the difference of the first pair of differing characters;
    the comparison ends at a NUL. *)
Fixpoint strcmp (a b : string) : Z :=
  match a, b with
  | EmptyString, EmptyString => 0
  | EmptyString, String d _ => 0 - code d
  | String c _, EmptyString => code c
  | String c a', String d b' =>
      if code c =? code d
      then if code c =? 0 then 0 else strcmp a' b'
      else code c - code d
  end.

(** [_stricmp] (POSIX [strcasecmp]): [strcmp] on the lower-cased
    characters. *)
Fixpoint _stricmp (a b : string) : Z :=
  match a, b with
  | EmptyString, EmptyString => 0
  | EmptyString, String d _ => 0 - code (tolower d)
  | String c _, EmptyString => code (tolower c)
  | String c a', String d b' =>
      if code (tolower c) =? code (tolower d)
      then if code c =? 0 then 0 else _stricmp a' b'
      else code (tolower c) - code (tolower d)
  end.

(** A buffer filled by [fgets] is read as a C string: up to the first
    NUL byte. *)
Fixpoint c_str (buf : string) : string :=
  match buf with
  | EmptyString => EmptyString
  | String c r => if code c =? 0 then EmptyString else String c (c_str r)
  end.

Definition isspace (c : ascii) : bool :=
  (code c =? 32) || ((9 <=? code c) && (code c <=? 13)).

Definition xdigit_val (c : ascii) : option Z :=
  let n := code c in
  if (48 <=? n) && (n <=? 57) then Some (n - 48)
  else if (97 <=? n) && (n <=? 102) then Some (n - 87)
  else if (65 <=? n) && (n <=? 70) then Some (n - 55)
  else None.

Definition isxdigit (c : ascii) : bool :=
  match xdigit_val c with Some _ => true | None => false end.

(** Conversion to the 32-bit [uint] the program casts to before it
    prints, and that [sscanf] stores through a [uint *]. *)
Definition to_uint (n : Z) : Z := n mod 2 ^ 32.
Definition to_uint64 (n : Z) : Z := n mod 2 ^ 64.
Definition to_int64 (n : Z) : Z := (n + 2 ^ 63) mod 2 ^ 64 - 2 ^ 63.

(** [printf] conversions: [%x] of a [uint], [%d] of an [int], [%llu] and
    [%lld] of a 64-bit integer, [0x%08x] of a pointer-sized integer. *)
Definition fmt_x (n : Z) : string :=
  HexadecimalString.NilZero.string_of_uint (N.to_hex_uint (Z.to_N (to_uint n))).

Definition fmt_d (n : Z) : string :=
  DecimalString.NilZero.string_of_int (Z.to_int n).

Definition fmt_llu (n : Z) : string :=
  DecimalString.NilZero.string_of_uint (N.to_uint (Z.to_N (to_uint64 n))).

Definition fmt_lld (n : Z) : string :=
  DecimalString.NilZero.string_of_int (Z.to_int (to_int64 n)).

Fixpoint zeros (k : nat) : string :=
  match k with
  | O => EmptyString
  | S k' => String "0" (zeros k')
  end.

Definition fmt_08x (n : Z) : string :=
  let s := fmt_x n in
  zeros (8 - String.length s) ++ s.

(** [sscanf] with the format [%x]: white space is skipped, a sign and a
    [0x] prefix are optional, then the longest run of hexadecimal digits
    is read ([0x] not followed by a digit reads as the number 0).  The
    conversion fails when no digit is found.  Characters after the
    number are left unread.  The value is stored through a
    [uint *]: it is the number read when that fits 32 bits, which is the
    case of every number of at most eight digits.  For a longer number
    the C standard leaves the result undefined and the C libraries
    differ (some saturate); the model reduces it modulo 2^32.  The
    program reads the object back as a [size_t], which the model takes
    to be as wide, as on the 32-bit builds of the tool. *)
Fixpoint skip_space (s : string) : string :=
  match s with
  | EmptyString => EmptyString
  | String c r => if isspace c then skip_space r else s
  end.

Fixpoint scan_xdigits (acc : Z) (s : string) : Z :=
  match s with
  | EmptyString => acc
  | String c r =>
      match xdigit_val c with
      | Some d => scan_xdigits (16 * acc + d) r
      | None => acc
      end
  end.

Definition strip_sign (s : string) : bool * string :=
  match s with
  | String c r =>
      if code c =? 45 then (true, r)
      else if code c =? 43 then (false, r)
      else (false, s)
  | EmptyString => (false, s)
  end.

Definition strip_0x (s : string) : string :=
  match s with
  | String z (String x (String d r)) =>
      if (code z =? 48) && ((code x =? 120) || (code x =? 88)) && isxdigit d
      then String d r
      else s
  | _ => s
  end.

Definition starts_xdigit (s : string) : bool :=
  match s with
  | String c _ => isxdigit c
  | EmptyString => false
  end.

Definition scan_x (s : string) : option Z :=
  let '(neg, s1) := strip_sign (skip_space s) in
  let s2 := strip_0x s1 in
  if starts_xdigit s2
  then let v := scan_xdigits 0 s2 in
       Some (to_uint (if neg then - v else v))
  else None.

(** [sscanf] with the format [%N[^;];%x]: at most [N] characters other
    than a semicolon are stored as the path (at least one is required),
    a semicolon must follow, then a number is read as by [%x].  The
    result is [Some] of the two stored values exactly when [sscanf]
    returns 2.  The path is kept as [sscanf] stores it, whatever the
    size of the buffer it is stored in. *)
Fixpoint scanset_not_semi (n : nat) (s : string) : string * string :=
  match n, s with
  | S n', String c r =>
      if code c =? 59 then (EmptyString, s)
      else let '(p, q) := scanset_not_semi n' r in (String c p, q)
  | _, _ => (EmptyString, s)
  end.

Definition sscanf_path_x (width : nat) (line : string) : option (string * Z) :=
  match scanset_not_semi width line with
  | (EmptyString, _) => None
  | (path, String c r) =>
      if code c =? 59 then
        match scan_x r with
        | Some v => Some (path, v)
        | None => None
        end
      else None
  | (_, EmptyString) => None
  end.

(** [fgets (buf, n, stdin)] copies characters up to and including the
    first newline, at most [n - 1] of them; the third component tells
    whether the end of the input was hit while reading. *)
Fixpoint fgets_take (k : nat) (s : string) : string * string * bool :=
  match k with
  | O => (EmptyString, s, false)
  | S k' =>
      match s with
      | EmptyString => (EmptyString, EmptyString, true)
      | String c r =>
          if code c =? 10 then (String c EmptyString, r, false)
          else let '(l, r', e) := fgets_take k' r in (String c l, r', e)
      end
  end.

End Libc.

Import Libc.


(** ** What the build and the headers fix

    [utils.h] and the drsyms and DynamoRIO headers are not part of the
    file.  What the program takes from them is a parameter: the platform
    switch [WINDOWS], the buffer size [MAXIMUM_PATH] (which is also the
    field width [MAX_PATH_STR] and [BUFFER_SIZE_ELEMENTS] of the path
    buffer), the values of the status and debug-kind constants, the
    macro [TEST], and how [PIFX] prints a pointer-sized integer. *)

Record build : Type := {
  WINDOWS : bool;
  MAXIMUM_PATH : nat;
  DRSYM_SUCCESS : Z;
  DRSYM_ERROR_LINE_NOT_AVAILABLE : Z;
  DRSYM_SYMBOLS : Z;
  DRSYM_LINE_NUMS : Z;
  DRSYM_ELF_SYMTAB : Z;
  DRSYM_PDB : Z;
  DRSYM_PECOFF_SYMTAB : Z;
  TEST : Z -> Z -> bool;
  PIFX : Z -> string
}.

(** Two sample builds, one per platform, on which the model can be run:
    [TEST (mask, var)] is a non-zero bitwise and, a pointer prints as
    [0x%08x]. *)
Definition test_mask (mask var : Z) : bool := negb (Z.land mask var =? 0).

Definition build_windows : build :=
  {| WINDOWS := true; MAXIMUM_PATH := 260;
     DRSYM_SUCCESS := 0; DRSYM_ERROR_LINE_NOT_AVAILABLE := 6;
     DRSYM_SYMBOLS := 1; DRSYM_LINE_NUMS := 2;
     DRSYM_ELF_SYMTAB := 256; DRSYM_PDB := 1024;
     DRSYM_PECOFF_SYMTAB := 2048;
     TEST := test_mask; PIFX := fun n => "0x" ++ fmt_08x n |}.

Definition build_linux : build :=
  {| WINDOWS := false; MAXIMUM_PATH := 260;
     DRSYM_SUCCESS := 0; DRSYM_ERROR_LINE_NOT_AVAILABLE := 6;
     DRSYM_SYMBOLS := 1; DRSYM_LINE_NUMS := 2;
     DRSYM_ELF_SYMTAB := 256; DRSYM_PDB := 1024;
     DRSYM_PECOFF_SYMTAB := 2048;
     TEST := test_mask; PIFX := fun n => "0x" ++ fmt_08x n |}.

Definition MAX_FUNC_LEN : Z := 256.

(** ** Data exchanged with the symbol library

    Of the two structures of [drsyms.h], the fields the program reads.
    The buffer sizes the program writes into [drsym_info_t] before a
    lookup are constants: [name_size] is [MAX_FUNC_LEN]. *)

Record drsym_info_t : Type := {
  name : string;
  name_available_size : Z;
  file : string;
  line : Z;
  line_offs : Z;
  start_offs : Z;
  end_offs : Z;
  debug_kind : Z
}.

Record drsym_line_info_t : Type := {
  cu_name : option string;
  li_file : option string;
  li_line : Z;
  line_addr : Z
}.

(** ** The outside world

    The symbol library and the host file system.  The library may keep
    state between calls; an enumeration entry point answers with the
    sequence of records it hands to the callback and its final status. *)

Record environment : Type := {
  lib_state : Type;
  dr_file_exists : string -> bool;
  GetFullPathName : string -> nat -> Z * string;
  _access : string -> Z -> Z;
  lib_init : lib_state -> Z * lib_state;
  lib_exit : lib_state -> Z * lib_state;
  lib_lookup_address :
    string -> Z -> lib_state -> (Z * drsym_info_t) * lib_state;
  lib_lookup_symbol :
    string -> string -> lib_state -> (Z * Z) * lib_state;
  lib_enumerate_symbols :
    string -> lib_state -> (list (drsym_info_t * Z) * Z) * lib_state;
  lib_search_symbols :
    string -> option string -> bool -> lib_state ->
    (list (drsym_info_t * Z) * Z) * lib_state;
  lib_enumerate_lines :
    string -> lib_state -> (list drsym_line_info_t * Z) * lib_state;
  lib_get_module_debug_kind :
    string -> lib_state -> (Z * Z) * lib_state
}.

(** ** Events *)

Inductive libcall : Type :=
| Cstandalone_init
| Cinit
| Cexit
| Clookup_address (dllpath : string) (modoffs : Z)
| Clookup_symbol (dllpath : string) (sym : string)
| Cenumerate_symbols (dllpath : string)
| Csearch_symbols (dllpath : string) (pat : option string) (full : bool)
| Cenumerate_lines (dllpath : string)
| Cget_module_debug_kind (dllpath : string).

Inductive event : Type :=
| Printf (s : string)
| Fflush
| Fgets (r : option string)
| Call (c : libcall).

(** What standard output receives. *)
Fixpoint stdout_of (t : list event) : string :=
  match t with
  | [] => EmptyString
  | Printf s :: t' => s ++ stdout_of t'
  | _ :: t' => stdout_of t'
  end.

Definition is_single_module_call (e : event) : bool :=
  match e with
  | Call (Clookup_symbol _ _) => true
  | Call (Cenumerate_symbols _) => true
  | Call (Csearch_symbols _ _ _) => true
  | Call (Cenumerate_lines _) => true
  | _ => false
  end.

Definition is_printf (e : event) : bool :=
  match e with
  | Printf _ => true
  | _ => false
  end.

(** Observations on traces. *)
Fixpoint printed (t : list event) : list string :=
  match t with
  | [] => []
  | Printf s :: t' => s :: printed t'
  | _ :: t' => printed t'
  end.

Fixpoint lookups (t : list event) : list (string * Z) :=
  match t with
  | [] => []
  | Call (Clookup_address p a) :: t' => (p, a) :: lookups t'
  | _ :: t' => lookups t'
  end.

Definition value_of {A S : Type} (r : A * list event * S) : A := fst (fst r).
Definition events_of {A S : Type} (r : A * list event * S) : list event :=
  snd (fst r).
Definition state_of {A S : Type} (r : A * list event * S) : S := snd r.

(** ** A sample library

    One module [a.dll] (on Windows [C:\a.dll]) with the function [main]
    at offsets 16 to 47, compiled from [a.c], and the function [_start]
    at offsets 0 to 15, without line information.  [init_status] and
    [teardown_status] are what initialisation and teardown answer. *)

Definition info_main (modoffs : Z) : drsym_info_t :=
  {| name := "main"; name_available_size := 4; file := "a.c"; line := 10;
     line_offs := modoffs - 16; start_offs := 16; end_offs := 48;
     debug_kind := 1027 |}.

Definition info_start : drsym_info_t :=
  {| name := "_start"; name_available_size := 6; file := ""; line := 0;
     line_offs := 0; start_offs := 0; end_offs := 16; debug_kind := 1025 |}.

Definition is_sample_module (p : string) : bool :=
  String.eqb p "a.dll" || String.eqb p "C:\a.dll".

Definition sample_env (init_status teardown_status : Z) : environment :=
  {| lib_state := unit;
     dr_file_exists := is_sample_module;
     GetFullPathName := fun p _ =>
       (Z.of_nat (String.length ("C:\" ++ p)), "C:\" ++ p);
     _access := fun p _ => if is_sample_module p then 0 else -1;
     lib_init := fun l => (init_status, l);
     lib_exit := fun l => (teardown_status, l);
     lib_lookup_address := fun p a l =>
       if is_sample_module p && (16 <=? a) && (a <? 48)
       then (0, info_main a, l)
       else if is_sample_module p && (0 <=? a) && (a <? 16)
       then (6, info_start, l)
       else (5, info_start, l);
     lib_lookup_symbol := fun p sym l =>
       if is_sample_module p && String.eqb sym "main" then (0, 16, l)
       else (5, 0, l);
     lib_enumerate_symbols := fun p l =>
       if is_sample_module p
       then ([(info_start, 0); (info_main 16, 0)], 0, l)
       else ([], 4, l);
     lib_search_symbols := fun p pat full l =>
       if is_sample_module p then ([], 0, l) else ([], 4, l);
     lib_enumerate_lines := fun p l =>
       if is_sample_module p
       then ([{| cu_name := Some "a.c"; li_file := Some "a.c";
                 li_line := 10; line_addr := 16 |}], 0, l)
       else ([], 4, l);
     lib_get_module_debug_kind := fun p l =>
       if is_sample_module p then (0, 1027, l) else (4, 0, l) |}.

Definition sample : environment := sample_env 0 0.

(** ** The program *)

Section Symquery.

Variable B : build.
Variable E : environment.

(** The state the program runs in: what is left of standard input, its
    end-of-file indicator, and the state of the symbol library. *)
Record state : Type := {
  stdin_buf : string;
  stdin_eof : bool;
  lib : lib_state E
}.

(** A computation returns a value, the events it caused, and the new
    state. *)
Definition M (A : Type) : Type := state -> A * list event * state.

Definition ret {A : Type} (a : A) : M A := fun s => (a, [], s).

Definition bind {A C : Type} (m : M A) (f : A -> M C) : M C :=
  fun s =>
    let '(a, t1, s1) := m s in
    let '(c, t2, s2) := f a s1 in
    (c, (t1 ++ t2)%list, s2).

Notation "x <- m ;; k" := (bind m (fun x => k))
  (at level 61, m at next level, right associativity).
Notation "m ;; k" := (bind m (fun _ => k))
  (at level 61, right associativity).

Definition emit (t : list event) : M unit := fun s => (tt, t, s).

Definition printf (str : string) : M unit := emit [Printf str].

Definition fflush_stdout : M unit := emit [Fflush].

Definition when (b : bool) (m : M unit) : M unit := if b then m else ret tt.

(** Calls into the library: the call is recorded, the oracle answers. *)
Definition call {A : Type} (c : libcall)
  (f : lib_state E -> A * lib_state E) : M A :=
  fun s =>
    let '(a, l) := f (lib s) in
    (a, [Call c],
     {| stdin_buf := stdin_buf s; stdin_eof := stdin_eof s; lib := l |}).

Definition dr_standalone_init : M unit :=
  call Cstandalone_init (fun l => (tt, l)).

Definition drsym_init : M Z := call Cinit (lib_init E).

Definition drsym_exit : M Z := call Cexit (lib_exit E).

Definition drsym_lookup_address (dllpath : string) (modoffs : Z)
  : M (Z * drsym_info_t) :=
  call (Clookup_address dllpath modoffs) (lib_lookup_address E dllpath modoffs).

Definition drsym_lookup_symbol (dllpath sym : string) : M (Z * Z) :=
  call (Clookup_symbol dllpath sym) (lib_lookup_symbol E dllpath sym).

Definition drsym_get_module_debug_kind (dllpath : string) : M (Z * Z) :=
  call (Cget_module_debug_kind dllpath) (lib_get_module_debug_kind E dllpath).

(** An enumeration hands its records to the callback one by one and
    stops as soon as the callback answers [false]. *)
Fixpoint iterate {A : Type} (cb : A -> M bool) (items : list A) : M unit :=
  match items with
  | [] => ret tt
  | x :: rest =>
      continue <- cb x ;;
      if continue then iterate cb rest else ret tt
  end.

Definition drsym_enumerate_symbols_ex (dllpath : string)
  (cb : drsym_info_t -> Z -> option string -> M bool)
  (data : option string) : M Z :=
  r <- call (Cenumerate_symbols dllpath) (lib_enumerate_symbols E dllpath) ;;
  iterate (fun p => cb (fst p) (snd p) data) (fst r) ;;
  ret (snd r).

Definition drsym_search_symbols_ex (dllpath : string) (pat : option string)
  (full : bool) (cb : drsym_info_t -> Z -> option string -> M bool)
  (data : option string) : M Z :=
  r <- call (Csearch_symbols dllpath pat full)
            (lib_search_symbols E dllpath pat full) ;;
  iterate (fun p => cb (fst p) (snd p) data) (fst r) ;;
  ret (snd r).

Definition drsym_enumerate_lines (dllpath : string)
  (cb : drsym_line_info_t -> string -> M bool) (data : string) : M Z :=
  r <- call (Cenumerate_lines dllpath) (lib_enumerate_lines E dllpath) ;;
  iterate (fun info => cb info data) (fst r) ;;
  ret (snd r).

(** Standard input. *)
Definition feof_stdin : M bool := fun s => (stdin_eof s, [], s).

Definition fgets (n : nat) : M (option string) :=
  fun s =>
    match stdin_buf s with
    | EmptyString =>
        (None, [Fgets None],
         {| stdin_buf := EmptyString; stdin_eof := true; lib := lib s |})
    | buf =>
        let '(l, r, e) := fgets_take (n - 1) buf in
        (Some l, [Fgets (Some l)],
         {| stdin_buf := r; stdin_eof := stdin_eof s || e; lib := lib s |})
    end.

Definition stdin_remaining : M nat :=
  fun s => (String.length (stdin_buf s), [], s).

(** *** Usage text *)

Definition USAGE_PRE (mypath : string) : string :=
  "Usage:" ++ nl ++
  "Look up addresses for one module:" ++ nl ++
  "  " ++ mypath ++
  " -e <module> [-f] [-v] -a [<address relative to module base> ...]" ++ nl ++
  "Look up addresses for multiple modules:" ++ nl ++
  "  " ++ mypath ++
  " [-f] [-v] -q <pairs of [module_path;address relative to module base] on stdin>"
  ++ nl ++
  "Look up exact symbols for one module:" ++ nl ++
  "  " ++ mypath ++ " -e <module> [-v] [--enum] -s [<symbol1> <symbol2> ...]" ++ nl.

Definition USAGE_MID (mypath : string) : string :=
  if WINDOWS B then
    "Look up symbols matching wildcard patterns (glob-style: *,?) for one module:"
    ++ nl ++
    "  " ++ mypath ++ " -e <module> [-v] --search -s [<symbol1> <symbol2> ...]"
    ++ nl ++
    "Look up private symbols matching wildcard patterns (glob-style: *,?) for one module:"
    ++ nl ++
    "  " ++ mypath ++ " -e <module> [-v] --searchall -s [<symbol1> <symbol2> ...]"
    ++ nl
  else EmptyString.

Definition USAGE_POST (mypath : string) : string :=
  "List all symbols in a module:" ++ nl ++
  "  " ++ mypath ++ " -e <module> [-v] --list" ++ nl ++
  "List all source lines in a module:" ++ nl ++
  "  " ++ mypath ++ " -e <module> [-v] --lines" ++ nl ++
  "Optional parameters:" ++ nl ++
  "  -f = show function name" ++ nl ++
  "  -v = verbose" ++ nl ++
  "  --enum = look up via external enum rather than drsyms-internal enum" ++ nl.

Definition PRINT_USAGE (mypath : string) : list event :=
  [Printf (USAGE_PRE mypath); Printf (USAGE_MID mypath);
   Printf (USAGE_POST mypath)].

(** *** Options

    The two file-scope flags [show_func] and [verbose] and the locals of
    [main] that the argument loop sets.  [dll] is [None] for the null
    pointer. *)

Record options : Type := {
  dll : option string;
  show_func : bool;
  verbose : bool;
  addr2sym : bool;
  addr2sym_multi : bool;
  sym2addr : bool;
  enumerate : bool;
  enumerate_all : bool;
  search : bool;
  searchall : bool;
  enum_lines : bool
}.

Definition initial_options : options :=
  {| dll := None; show_func := false; verbose := false;
     addr2sym := false; addr2sym_multi := false; sym2addr := false;
     enumerate := false; enumerate_all := false; search := false;
     searchall := false; enum_lines := false |}.

Definition set_dll (d : string) (o : options) : options :=
  {| dll := Some d; show_func := show_func o; verbose := verbose o;
     addr2sym := addr2sym o; addr2sym_multi := addr2sym_multi o;
     sym2addr := sym2addr o; enumerate := enumerate o;
     enumerate_all := enumerate_all o; search := search o;
     searchall := searchall o; enum_lines := enum_lines o |}.

Definition set_show_func (o : options) : options :=
  {| dll := dll o; show_func := true; verbose := verbose o;
     addr2sym := addr2sym o; addr2sym_multi := addr2sym_multi o;
     sym2addr := sym2addr o; enumerate := enumerate o;
     enumerate_all := enumerate_all o; search := search o;
     searchall := searchall o; enum_lines := enum_lines o |}.

Definition set_verbose (o : options) : options :=
  {| dll := dll o; show_func := show_func o; verbose := true;
     addr2sym := addr2sym o; addr2sym_multi := addr2sym_multi o;
     sym2addr := sym2addr o; enumerate := enumerate o;
     enumerate_all := enumerate_all o; search := search o;
     searchall := searchall o; enum_lines := enum_lines o |}.

Definition set_addr2sym (o : options) : options :=
  {| dll := dll o; show_func := show_func o; verbose := verbose o;
     addr2sym := true; addr2sym_multi := addr2sym_multi o;
     sym2addr := sym2addr o; enumerate := enumerate o;
     enumerate_all := enumerate_all o; search := search o;
     searchall := searchall o; enum_lines := enum_lines o |}.

Definition set_sym2addr (o : options) : options :=
  {| dll := dll o; show_func := show_func o; verbose := verbose o;
     addr2sym := addr2sym o; addr2sym_multi := addr2sym_multi o;
     sym2addr := true; enumerate := enumerate o;
     enumerate_all := enumerate_all o; search := search o;
     searchall := searchall o; enum_lines := enum_lines o |}.

Definition set_enum_lines (o : options) : options :=
  {| dll := dll o; show_func := show_func o; verbose := verbose o;
     addr2sym := addr2sym o; addr2sym_multi := addr2sym_multi o;
     sym2addr := sym2addr o; enumerate := enumerate o;
     enumerate_all := enumerate_all o; search := search o;
     searchall := searchall o; enum_lines := true |}.

Definition set_addr2sym_multi (o : options) : options :=
  {| dll := dll o; show_func := show_func o; verbose := verbose o;
     addr2sym := addr2sym o; addr2sym_multi := true;
     sym2addr := sym2addr o; enumerate := enumerate o;
     enumerate_all := enumerate_all o; search := search o;
     searchall := searchall o; enum_lines := enum_lines o |}.

Definition set_enumerate (o : options) : options :=
  {| dll := dll o; show_func := show_func o; verbose := verbose o;
     addr2sym := addr2sym o; addr2sym_multi := addr2sym_multi o;
     sym2addr := sym2addr o; enumerate := true;
     enumerate_all := enumerate_all o; search := search o;
     searchall := searchall o; enum_lines := enum_lines o |}.

Definition set_enumerate_all (o : options) : options :=
  {| dll := dll o; show_func := show_func o; verbose := verbose o;
     addr2sym := addr2sym o; addr2sym_multi := addr2sym_multi o;
     sym2addr := sym2addr o; enumerate := enumerate o;
     enumerate_all := true; search := search o;
     searchall := searchall o; enum_lines := enum_lines o |}.

Definition set_search (o : options) : options :=
  {| dll := dll o; show_func := show_func o; verbose := verbose o;
     addr2sym := addr2sym o; addr2sym_multi := addr2sym_multi o;
     sym2addr := sym2addr o; enumerate := enumerate o;
     enumerate_all := enumerate_all o; search := true;
     searchall := searchall o; enum_lines := enum_lines o |}.

Definition set_searchall (o : options) : options :=
  {| dll := dll o; show_func := show_func o; verbose := verbose o;
     addr2sym := addr2sym o; addr2sym_multi := addr2sym_multi o;
     sym2addr := sym2addr o; enumerate := enumerate o;
     enumerate_all := enumerate_all o; search := true;
     searchall := true; enum_lines := enum_lines o |}.

(** *** The argument loop of [main] (lines 107-169)

    The loop either leaves [main] with an exit status, after printing,
    or ends, by running off the end of the vector or at the [break]
    after [-a] or [-s], with the options set so far and the arguments
    from index [i] on. *)

Inductive parse_result : Type :=
| Exit (out : list event) (status : Z)
| Parsed (o : options) (rest : list string).

(** The [-e] branch: the path the program keeps, or [None] when the path
    is rejected. *)
Definition resolve_module (arg : string) : option string :=
  if WINDOWS B then
    let '(res, dll_local) := GetFullPathName E arg (MAXIMUM_PATH B) in
    if (res <=? 0) || (Z.of_nat (MAXIMUM_PATH B) - 1 <=? res)
       || (_access E dll_local 4 =? -1)
    then None
    else Some dll_local
  else
    if negb (dr_file_exists E arg) then None else Some arg.

Fixpoint parse_args (mypath : string) (args : list string) (o : options)
  : parse_result :=
  match args with
  | [] => Parsed o []
  | a :: rest =>
      if _stricmp a "-e" =? 0 then
        match rest with
        | [] => Exit (PRINT_USAGE mypath) 1
        | p :: rest' =>
            match resolve_module p with
            | None => Exit [Printf ("ERROR: invalid path " ++ p ++ nl)] 1
            | Some d => parse_args mypath rest' (set_dll d o)
            end
        end
      else if _stricmp a "-f" =? 0 then
        parse_args mypath rest (set_show_func o)
      else if _stricmp a "-v" =? 0 then
        parse_args mypath rest (set_verbose o)
      else if (_stricmp a "-a" =? 0) || (_stricmp a "-s" =? 0) then
        match rest with
        | [] => Exit (PRINT_USAGE mypath) 1
        | _ :: _ =>
            if _stricmp a "-a" =? 0
            then Parsed (set_addr2sym o) rest
            else Parsed (set_sym2addr o) rest
        end
      else if _stricmp a "--lines" =? 0 then
        parse_args mypath rest (set_enum_lines o)
      else if _stricmp a "-q" =? 0 then
        parse_args mypath rest (set_addr2sym_multi o)
      else if _stricmp a "--enum" =? 0 then
        parse_args mypath rest (set_enumerate o)
      else if _stricmp a "--list" =? 0 then
        parse_args mypath rest (set_enumerate_all o)
      else if _stricmp a "--search" =? 0 then
        parse_args mypath rest (set_search o)
      else if _stricmp a "--searchall" =? 0 then
        parse_args mypath rest (set_searchall o)
      else Exit (PRINT_USAGE mypath) 1
  end.

(** The check after the loop (lines 170-172). *)
Definition invalid_options (o : options) : bool :=
  (negb (addr2sym_multi o) && match dll o with None => true | Some _ => false end)
  || (addr2sym_multi o && match dll o with None => false | Some _ => true end)
  || (negb (sym2addr o) && negb (addr2sym o) && negb (addr2sym_multi o)
      && negb (enumerate_all o) && negb (enum_lines o)).

(** *** The handlers (lines 230-353) *)

Definition debug_kind_text (kind : Z) : string :=
  "<debug info: type=" ++
  (if TEST B (DRSYM_ELF_SYMTAB B) kind then "ELF symtab"
   else if TEST B (DRSYM_PECOFF_SYMTAB B) kind then "PECOFF symtab"
   else if TEST B (DRSYM_PDB B) kind then "PDB"
   else "no symbols") ++ ", " ++
  (if TEST B (DRSYM_SYMBOLS B) kind then "has" else "NO") ++
  " symbols, " ++
  (if TEST B (DRSYM_LINE_NUMS B) kind then "has" else "NO") ++
  " line numbers>" ++ nl.

Definition print_debug_kind (kind : Z) : M unit :=
  printf (debug_kind_text kind).

Definition get_and_print_debug_kind (dllpath : string) : M unit :=
  r <- drsym_get_module_debug_kind dllpath ;;
  when (fst r =? DRSYM_SUCCESS B) (print_debug_kind (snd r)).

Definition lookup_address (o : options) (dllpath : string) (modoffs : Z)
  : M unit :=
  r <- drsym_lookup_address dllpath modoffs ;;
  let symres := fst r in
  let sym := snd r in
  if (symres =? DRSYM_SUCCESS B)
     || (symres =? DRSYM_ERROR_LINE_NOT_AVAILABLE B) then
    when (verbose o) (print_debug_kind (debug_kind sym)) ;;
    when (MAX_FUNC_LEN <=? name_available_size sym)
      (printf ("WARNING: function name longer than max: " ++ name sym ++ nl)) ;;
    when (show_func o)
      (printf (name sym ++ "+0x" ++ fmt_x (modoffs - start_offs sym) ++ nl)) ;;
    if symres =? DRSYM_ERROR_LINE_NOT_AVAILABLE B then
      printf ("??:0" ++ nl)
    else
      printf (file sym ++ ":" ++ fmt_llu (line sym) ++ "+0x" ++
              fmt_x (line_offs sym) ++ nl)
  else
    if verbose o then
      printf ("drsym_lookup_address error " ++ fmt_d symres ++ nl)
    else when (show_func o) (printf ("?" ++ nl)).

Definition lookup_symbol (o : options) (dllpath sym : string) : M unit :=
  when (verbose o) (get_and_print_debug_kind dllpath) ;;
  r <- drsym_lookup_symbol dllpath sym ;;
  let symres := fst r in
  let modoffs := snd r in
  if (symres =? DRSYM_SUCCESS B)
     || (symres =? DRSYM_ERROR_LINE_NOT_AVAILABLE B) then
    printf ("+0x" ++ fmt_x modoffs ++ nl)
  else
    if verbose o then
      printf ("drsym error " ++ fmt_d symres ++ " looking up " ++
              dq ++ sym ++ dq ++ " in " ++ dq ++ dllpath ++ dq ++ nl)
    else printf ("??" ++ nl).

(** The callback of the symbol enumerations; [data] is the name to
    match, [None] for the null pointer. *)
Definition search_cb (info : drsym_info_t) (status : Z) (data : option string)
  : M bool :=
  when (match data with
        | None => true
        | Some m => strcmp (name info) m =? 0
        end)
    (printf (name info ++ " +0x" ++ fmt_x (start_offs info) ++ "-0x" ++
             fmt_x (end_offs info) ++ nl)) ;;
  ret true.

Definition enumerate_symbols (o : options) (dllpath : string)
  (pat : option string) (search searchall : bool) : M unit :=
  when (verbose o) (get_and_print_debug_kind dllpath) ;;
  symres <- (if WINDOWS B && search
             then drsym_search_symbols_ex dllpath pat searchall search_cb None
             else drsym_enumerate_symbols_ex dllpath search_cb pat) ;;
  when (negb (symres =? DRSYM_SUCCESS B) && verbose o)
    (printf ("search/enum error " ++ fmt_d symres ++ nl)).

Definition enum_line_cb (info : drsym_line_info_t) (data : string) : M bool :=
  printf ("cu=" ++ dq ++
          (match cu_name info with None => "<null>" | Some c => c end) ++
          dq ++ ", file=" ++ dq ++
          (match li_file info with None => "<null>" | Some f => f end) ++
          dq ++ " line=" ++ fmt_lld (li_line info) ++
          ", addr=" ++ PIFX B (line_addr info) ++ nl) ;;
  ret true.

Definition enumerate_lines (o : options) (dllpath : string) : M unit :=
  when (verbose o) (get_and_print_debug_kind dllpath) ;;
  symres <- drsym_enumerate_lines dllpath enum_line_cb dllpath ;;
  when (negb (symres =? DRSYM_SUCCESS B) && verbose o)
    (printf ("line enum error " ++ fmt_d symres ++ nl)).

(** *** The two query loops of [main] (lines 191-201 and 204-221)

    In both loops the address is scanned through [(uint * )&modoffs]
    into the local [size_t modoffs] of [main], which is never
    initialised, and [modoffs] is what [lookup_address] is given.  The
    model hands over the 32-bit value scanned: it is the model of the
    builds where [size_t] has 32 bits; where it has 64 the upper half of
    the offset handed over is indeterminate, and the model says nothing
    of it.  Likewise the batch loop stores the path in a buffer of
    [MAXIMUM_PATH] bytes, which a path of exactly [MAXIMUM_PATH]
    characters overruns by its terminating NUL; the model keeps the path
    as scanned. *)

Definition query (o : options) (dllpath arg : string) : M unit :=
  if addr2sym o then
    match scan_x arg with
    | Some modoffs => lookup_address o dllpath modoffs
    | None => printf ("ERROR: unknown input " ++ arg ++ nl)
    end
  else if enumerate o || search o then
    enumerate_symbols o dllpath (Some arg) (search o) (searchall o)
  else lookup_symbol o dllpath arg.

Fixpoint query_loop (o : options) (dllpath : string) (args : list string)
  : M unit :=
  match args with
  | [] => ret tt
  | a :: rest => query o dllpath a ;; query_loop o dllpath rest
  end.

(** What the batch loop does with one line that is not the sentinel. *)
Definition batch_line (o : options) (ln : string) : M unit :=
  match sscanf_path_x (MAXIMUM_PATH B) ln with
  | Some (modpath, modoffs) =>
      lookup_address o modpath modoffs ;;
      fflush_stdout
  | None =>
      when (verbose o) (printf ("Error: unknown input " ++ ln ++ nl))
  end.

(** The loop is bounded by [fuel]; each turn that goes on consumes at
    least one character of the input, so the length of the input plus
    one is enough (see [batch_loop_fuel]). *)
Fixpoint batch_loop (fuel : nat) (o : options) : M unit :=
  match fuel with
  | O => ret tt
  | S fuel' =>
      eof <- feof_stdin ;;
      if eof then ret tt
      else
        r <- fgets (MAXIMUM_PATH B * 2) ;;
        match r with
        | None => ret tt
        | Some buf =>
            let ln := c_str buf in
            if strcmp ln (";exit" ++ nl) =? 0 then ret tt
            else batch_line o ln ;; batch_loop fuel' o
        end
  end.

(** *** [main] *)

(** The module path the single-module handlers are given; the check
    after the argument loop has made sure there is one. *)
Definition module_of (o : options) : string :=
  match dll o with
  | Some d => d
  | None => EmptyString
  end.

Definition dispatch (o : options) (rest : list string) : M unit :=
  if negb (addr2sym_multi o) then
    if enum_lines o then enumerate_lines o (module_of o)
    else if enumerate_all o then
      enumerate_symbols o (module_of o) None (search o) (searchall o)
    else query_loop o (module_of o) rest
  else
    n <- stdin_remaining ;;
    batch_loop (S n) o.

Definition main (argv : list string) : M Z :=
  let mypath := hd EmptyString argv in
  match parse_args mypath (tl argv) initial_options with
  | Exit out status => emit out ;; ret status
  | Parsed o rest =>
      if invalid_options o then
        emit (PRINT_USAGE mypath) ;; ret 1
      else
        dr_standalone_init ;;
        r <- drsym_init ;;
        if negb (r =? DRSYM_SUCCESS B) then
          printf ("ERROR: unable to initialize symbol library" ++ nl) ;;
          ret 1
        else
          dispatch o rest ;;
          r' <- drsym_exit ;;
          when (negb (r' =? DRSYM_SUCCESS B))
            (printf ("WARNING: error cleaning up symbol library" ++ nl)) ;;
          ret 0
  end.

(** Running the program on an argument vector, a standard input and an
    initial library state: exit status and trace. *)
Definition run (argv : list string) (input : string) (l : lib_state E)
  : Z * list event :=
  fst (main argv {| stdin_buf := input; stdin_eof := false; lib := l |}).

Definition exit_status (argv : list string) (input : string) (l : lib_state E)
  : Z := fst (run argv input l).

Definition trace (argv : list string) (input : string) (l : lib_state E)
  : list event := snd (run argv input l).

End Symquery.

(** ** Vocabulary of the statements *)

(** A string without NUL: what a C string can hold. *)
Definition is_c_string (s : string) : Prop := c_str s = s.

Fixpoint all_chars (p : ascii -> bool) (s : string) : bool :=
  match s with
  | EmptyString => true
  | String c r => p c && all_chars p r
  end.

Definition not_semicolon (c : ascii) : bool := negb (code c =? 59).




Definition sentinel : string := ";exit" ++ nl.

(** The requests among the lines a trace shows as read, in order. *)
Fixpoint requests_read (width : nat) (t : list event) : list (string * Z) :=
  match t with
  | [] => []
  | Fgets (Some raw) :: t' =>
      match sscanf_path_x width (c_str raw) with
      | Some r => r :: requests_read width t'
      | None => requests_read width t'
      end
  | _ :: t' => requests_read width t'
  end.

(** The request/response discipline of batch mode, as a check on a
    trace.  After a request has been read ([Expect]), the next event is
    the lookup of exactly that request; after the lookup ([Answering])
    only output follows until standard output is flushed; not before
    then is another line read.  No lookup happens unrequested. *)
Inductive phase : Type :=
| Idle
| Expect (dllpath : string) (modoffs : Z)
| Answering.

Fixpoint request_response (width : nat) (ph : phase) (t : list event) : bool :=
  match t with
  | [] => match ph with Idle => true | _ => false end
  | e :: t' =>
      match ph with
      | Idle =>
          match e with
          | Fgets (Some raw) =>
              match sscanf_path_x width (c_str raw) with
              | Some (p, a) => request_response width (Expect p a) t'
              | None => request_response width Idle t'
              end
          | Call (Clookup_address _ _) => false
          | _ => request_response width Idle t'
          end
      | Expect p a =>
          match e with
          | Call (Clookup_address p' a') =>
              String.eqb p p' && (a =? a') &&
              request_response width Answering t'
          | _ => false
          end
      | Answering =>
          match e with
          | Printf _ => request_response width Answering t'
          | Fflush => request_response width Idle t'
          | _ => false
          end
      end
  end.

(** The lines [lookup_address] prints, when the address is found,
    before the function and location lines: the debug kind when verbose
    and a warning when the function name did not fit its buffer. *)
Definition found_notes (B : build) (o : options) (sym : drsym_info_t)
  : list string :=
  app (if verbose o then [debug_kind_text B (debug_kind sym)] else [])
      (if MAX_FUNC_LEN <=? name_available_size sym
       then ["WARNING: function name longer than max: " ++ name sym ++ nl]
       else []).

Definition function_line (o : options) (modoffs : Z) (sym : drsym_info_t)
  : list string :=
  if show_func o
  then [name sym ++ "+0x" ++ fmt_x (modoffs - start_offs sym) ++ nl]
  else [].

Definition location_line (sym : drsym_info_t) : string :=
  file sym ++ ":" ++ fmt_llu (line sym) ++ "+0x" ++ fmt_x (line_offs sym) ++ nl.

(** The line printed for an enumerated symbol, and the exact-name
    filter: absent, or equal to the name of the symbol. *)
Definition symbol_line (info : drsym_info_t) : string :=
  name info ++ " +0x" ++ fmt_x (start_offs info) ++ "-0x" ++
  fmt_x (end_offs info) ++ nl.



(** A line of standard input as [fgets] delivers it whole: text without
    newline, then a newline, at most [limit] characters in all. *)
Definition not_newline (c : ascii) : bool := negb (code c =? 10).

Definition is_line (limit : nat) (ln : string) : Prop :=
  exists body,
    ln = body ++ nl /\ all_chars not_newline body = true /\
    (String.length ln <= limit)%nat.

(** The state after a read that left [rest] unread and did not hit the
    end of the input. *)
Definition after_read (E : environment) (s : state E) (rest : string)
  : state E :=
  {| stdin_buf := rest; stdin_eof := stdin_eof E s; lib := lib E s |}.

(** What [_stricmp] compares: the C string, in lower case. *)
Fixpoint fold_case (s : string) : string :=
  match s with
  | EmptyString => EmptyString
  | String c r =>
      if code c =? 0 then EmptyString else String (tolower c) (fold_case r)
  end.

(** The state [main] starts in, and the state in which it dispatches,
    after a successful initialisation of the library. *)
Definition initial_state (E : environment) (input : string) (l : lib_state E)
  : state E :=
  {| stdin_buf := input; stdin_eof := false; lib := l |}.

Definition initialised_state (E : environment) (input : string)
  (l : lib_state E) : state E :=
  {| stdin_buf := input; stdin_eof := false; lib := snd (lib_init E l) |}.

Definition teardown_warning (B : build) (status : Z) : list event :=
  if status =? DRSYM_SUCCESS B then []
  else [Printf ("WARNING: error cleaning up symbol library" ++ nl)].

Definition no_single_module_call (t : list event) : bool :=
  forallb (fun e => negb (is_single_module_call e)) t.

Definition no_library_call (t : list event) : bool :=
  forallb (fun e => match e with Call _ => false | _ => true end) t.

(** ** Vocabulary of the further statements *)

(** The line [enum_line_cb] prints for a line record. *)
Definition line_record (B : build) (info : drsym_line_info_t) : string :=
  "cu=" ++ dq ++
  (match cu_name info with None => "<null>" | Some c => c end) ++
  dq ++ ", file=" ++ dq ++
  (match li_file info with None => "<null>" | Some f => f end) ++
  dq ++ " line=" ++ fmt_lld (li_line info) ++
  ", addr=" ++ PIFX B (line_addr info) ++ nl.

(** The buffers [fgets] filled, in order, and their concatenation. *)
Fixpoint reads (t : list event) : list string :=
  match t with
  | [] => []
  | Fgets (Some raw) :: t' => raw :: reads t'
  | _ :: t' => reads t'
  end.

Definition read_text (t : list event) : string :=
  fold_right append EmptyString (reads t).

(** A computation that neither reads standard input nor flushes
    standard output: it only prints and calls the library. *)
Definition quiet_event (e : event) : bool :=
  match e with
  | Printf _ => true
  | Call _ => true
  | _ => false
  end.

Definition quiet (E : environment) {A : Type} (m : M E A) : Prop :=
  forall s : state E,
    forallb quiet_event (events_of (m s)) = true /\
    stdin_buf E (state_of (m s)) = stdin_buf E s /\
    stdin_eof E (state_of (m s)) = stdin_eof E s.

(** The addresses among the queries of a command line, in order. *)
Fixpoint scanned (queries : list string) : list Z :=
  match queries with
  | [] => []
  | q :: rest =>
      match scan_x q with
      | Some a => a :: scanned rest
      | None => scanned rest
      end
  end.

(** The flags of the argument loop, in lower case: those that take no
    value and do not end the loop, and all of them. *)
Definition simple_flags : list string :=
  ["-f"; "-v"; "--lines"; "-q"; "--enum"; "--list"; "--search"; "--searchall"].

Definition known_flags : list string :=
  "-e" :: "-a" :: "-s" :: simple_flags.

Definition flag_is (f a : string) : bool := String.eqb (fold_case a) f.

Definition simple_flag (a : string) : bool :=
  existsb (fun f => flag_is f a) simple_flags.

Definition known_flag (a : string) : bool :=
  existsb (fun f => flag_is f a) known_flags.

Definition has_flag (f : string) (args : list string) : bool :=
  existsb (flag_is f) args.

(** The options after a run of simple flags, read off the set of flags
    present. *)
Definition with_flags (args : list string) (o : options) : options :=
  {| dll := dll o;
     show_func := show_func o || has_flag "-f" args;
     verbose := verbose o || has_flag "-v" args;
     addr2sym := addr2sym o;
     addr2sym_multi := addr2sym_multi o || has_flag "-q" args;
     sym2addr := sym2addr o;
     enumerate := enumerate o || has_flag "--enum" args;
     enumerate_all := enumerate_all o || has_flag "--list" args;
     search := search o || has_flag "--search" args
               || has_flag "--searchall" args;
     searchall := searchall o || has_flag "--searchall" args;
     enum_lines := enum_lines o || has_flag "--lines" args |}.

(** What follows a number on a command line or in a batch line: nothing,
    or the newline that ends the line. *)
Definition ends_number (rest : string) : Prop :=
  rest = EmptyString \/ exists r, rest = String newline r.

(** The library calls of a trace, in order. *)
Fixpoint calls (t : list event) : list libcall :=
  match t with
  | [] => []
  | Call c :: t' => c :: calls t'
  | _ :: t' => calls t'
  end.

(** One more sample: the sample library with a wildcard search that
    finds both symbols. *)
Definition sample_wild : environment :=
  {| lib_state := unit;
     dr_file_exists := dr_file_exists sample;
     GetFullPathName := GetFullPathName sample;
     _access := _access sample;
     lib_init := lib_init sample;
     lib_exit := lib_exit sample;
     lib_lookup_address := lib_lookup_address sample;
     lib_lookup_symbol := lib_lookup_symbol sample;
     lib_enumerate_symbols := lib_enumerate_symbols sample;
     lib_search_symbols := fun p pat full l =>
       if is_sample_module p
       then ([(info_start, 0); (info_main 16, 0)], 0, l)
       else ([], 4, l);
     lib_enumerate_lines := fun p l =>
       if is_sample_module p
       then ([{| cu_name := Some "a.c"; li_file := Some "a.c";
                 li_line := 10; line_addr := 16 |};
              {| cu_name := None; li_file := None;
                 li_line := 0; line_addr := 0 |}], 7, l)
       else ([], 4, l);
     lib_get_module_debug_kind := lib_get_module_debug_kind sample |}.


(** Whether [%x] finds a number in an argument. *)
Definition scans (q : string) : bool :=
  match scan_x q with
  | Some _ => true
  | None => false
  end.

(** Comparisons on character codes, decided by case analysis. *)
Ltac code_cases :=
  repeat match goal with
  | H : context [ (?a <=? ?b) ] |- _ => destruct (Z.leb_spec a b)
  | H : context [ (?a =? ?b) ] |- _ => destruct (Z.eqb_spec a b)
  | |- context [ (?a <=? ?b) ] => destruct (Z.leb_spec a b)
  | |- context [ (?a =? ?b) ] => destruct (Z.eqb_spec a b)
  end;
  simpl in *; try congruence; try lia.

(** ** The C library model: checks and lemmas *)

Example fmt_x_beef : fmt_x 48879 = "beef".
Proof. reflexivity. Qed.

Example fmt_x_wraps : fmt_x (-14) = "fffffff2".
Proof. reflexivity. Qed.

Example fmt_d_neg : fmt_d (-5) = "-5".
Proof. reflexivity. Qed.

Example fmt_08x_pads : fmt_08x 4096 = "00001000".
Proof. reflexivity. Qed.

Example scan_x_plain : scan_x "1f" = Some 31.
Proof. reflexivity. Qed.

Example scan_x_prefix : scan_x "  0X1fz" = Some 31.
Proof. reflexivity. Qed.

Example scan_x_dash_e : scan_x "-e" = Some 4294967282.
Proof. reflexivity. Qed.

Example scan_x_dash_v : scan_x "-v" = None.
Proof. reflexivity. Qed.

Example sscanf_path_x_ok :
  sscanf_path_x 260 ("C:\a b.dll;10" ++ nl) = Some ("C:\a b.dll", 16).
Proof. reflexivity. Qed.

Example sscanf_path_x_exit : sscanf_path_x 260 (";exit" ++ nl) = None.
Proof. reflexivity. Qed.

Example stricmp_case : _stricmp "--LIST" "--list" = 0.
Proof. reflexivity. Qed.

Lemma append_assoc (a b c : string) : (a ++ b) ++ c = a ++ (b ++ c).
Proof.
  induction a as [|x a IH]; simpl; [reflexivity|]. now rewrite IH.
Qed.

Lemma code_inj (c d : ascii) : code c = code d -> c = d.
Proof.
  unfold code. intros H. apply N2Z.inj in H.
  rewrite <- (ascii_N_embedding c), <- (ascii_N_embedding d).
  now rewrite H.
Qed.

Lemma code_eqb_eq (c d : ascii) : (code c =? code d) = true <-> c = d.
Proof.
  rewrite Z.eqb_eq. split; [apply code_inj | now intros ->].
Qed.

Lemma c_str_idem (s : string) : is_c_string (c_str s).
Proof.
  unfold is_c_string. induction s as [|c r IH]; simpl; [reflexivity|].
  destruct (code c =? 0) eqn:Hc; simpl; [reflexivity|].
  now rewrite Hc, IH.
Qed.

Lemma is_c_string_cons (c : ascii) (r : string) :
  is_c_string (String c r) -> code c <> 0 /\ is_c_string r.
Proof.
  unfold is_c_string. simpl. destruct (code c =? 0) eqn:Hc.
  - discriminate.
  - intros H. injection H as H. split; [now apply Z.eqb_neq | exact H].
Qed.

Lemma strcmp_refl (a : string) : strcmp a a = 0.
Proof.
  induction a as [|c r IH]; simpl; [reflexivity|].
  rewrite Z.eqb_refl. now destruct (code c =? 0).
Qed.

Lemma strcmp_0_eq (a b : string) :
  is_c_string a -> is_c_string b -> strcmp a b = 0 -> a = b.
Proof.
  revert b. induction a as [|c a IH]; intros [|d b] Ha Hb; simpl.
  - reflexivity.
  - apply is_c_string_cons in Hb. lia.
  - apply is_c_string_cons in Ha. lia.
  - apply is_c_string_cons in Ha. apply is_c_string_cons in Hb.
    destruct Ha as [Hc Ha], Hb as [Hd Hb].
    destruct (code c =? code d) eqn:Hcd.
    + apply code_eqb_eq in Hcd. subst d.
      destruct (code c =? 0) eqn:H0; [apply Z.eqb_eq in H0; lia|].
      intros H. f_equal. now apply IH.
    + apply Z.eqb_neq in Hcd. lia.
Qed.

Lemma strcmp_eqb (a b : string) :
  is_c_string a -> is_c_string b -> (strcmp a b =? 0) = String.eqb a b.
Proof.
  intros Ha Hb. destruct (String.eqb a b) eqn:Hab.
  - apply String.eqb_eq in Hab. subst. now rewrite strcmp_refl.
  - apply Z.eqb_neq. intros H. apply String.eqb_neq in Hab.
    apply Hab. now apply strcmp_0_eq.
Qed.

Lemma code_range (c : ascii) : 0 <= code c < 256.
Proof.
  unfold code. pose proof (N_ascii_bounded c) as H. lia.
Qed.

Lemma code_tolower (c : ascii) :
  code (tolower c) =
  if (65 <=? code c) && (code c <=? 90) then code c + 32 else code c.
Proof.
  unfold tolower.
  destruct ((65 <=? code c) && (code c <=? 90)) eqn:H; [|reflexivity].
  apply andb_prop in H as [H1 H2]. apply Z.leb_le in H1, H2.
  unfold code in *. rewrite N_ascii_embedding by lia. lia.
Qed.

Lemma tolower_nul (c : ascii) : (code (tolower c) =? 0) = (code c =? 0).
Proof.
  rewrite code_tolower. pose proof (code_range c). code_cases.
Qed.

(** [_stricmp] answers 0 exactly when the two C strings agree up to
    case. *)
Lemma stricmp_eqb (a b : string) :
  (_stricmp a b =? 0) = String.eqb (fold_case a) (fold_case b).
Proof.
  revert b. induction a as [|c a IH]; intros [|d b]; cbn [_stricmp fold_case].
  - reflexivity.
  - rewrite <- (tolower_nul d).
    destruct (code (tolower d) =? 0) eqn:H; code_cases.
  - rewrite <- (tolower_nul c).
    destruct (code (tolower c) =? 0) eqn:H; code_cases.
  - rewrite <- (tolower_nul c), <- (tolower_nul d).
    destruct (code (tolower c) =? code (tolower d)) eqn:Hcd.
    + apply Z.eqb_eq in Hcd. rewrite <- Hcd.
      destruct (code (tolower c) =? 0); [reflexivity|].
      rewrite IH. cbn [String.eqb].
      apply code_inj in Hcd. rewrite Hcd, Ascii.eqb_refl. reflexivity.
    + assert (Hne : tolower c <> tolower d).
      { intros H. rewrite H, Z.eqb_refl in Hcd. discriminate. }
      apply Z.eqb_neq in Hcd.
      destruct (code (tolower c) =? 0) eqn:Hc0, (code (tolower d) =? 0) eqn:Hd0;
        cbn [String.eqb].
      * apply Z.eqb_eq in Hc0, Hd0. lia.
      * apply Z.eqb_neq. lia.
      * apply Z.eqb_neq. lia.
      * apply Ascii.eqb_neq in Hne. rewrite Hne. apply Z.eqb_neq. lia.
Qed.

Lemma stricmp_0 (a b : string) :
  _stricmp a b = 0 <-> fold_case a = fold_case b.
Proof.
  rewrite <- Z.eqb_eq, stricmp_eqb. apply String.eqb_eq.
Qed.

Lemma xdigit_not_space (c : ascii) : isxdigit c = true -> isspace c = false.
Proof.
  unfold isxdigit, xdigit_val, isspace. cbv zeta. intros H. code_cases.
Qed.

Lemma xdigit_not_sign (c : ascii) :
  isxdigit c = true -> (code c =? 45) = false /\ (code c =? 43) = false.
Proof.
  unfold isxdigit, xdigit_val. cbv zeta. intros H. split; code_cases.
Qed.






Lemma scanset_not_semi_path (width : nat) (path r : string) :
  all_chars not_semicolon path = true ->
  (String.length path <= width)%nat ->
  scanset_not_semi width (path ++ String ";" r) = (path, String ";" r).
Proof.
  revert width. induction path as [|c p IH]; intros width Hp Hlen.
  - now destruct width.
  - cbn [all_chars String.length] in Hp, Hlen. apply andb_prop in Hp as [Hc Hp].
    destruct width as [|w]; [lia|].
    unfold not_semicolon in Hc. apply negb_true_iff in Hc.
    cbn [append scanset_not_semi]. rewrite Hc.
    rewrite IH by (auto; lia). reflexivity.
Qed.





(** ** The program: lemmas and theorems *)

Section Theory.

Variable B : build.
Variable E : environment.

(** *** Running a sequence *)

Lemma events_bind {A C : Type} (m : M E A) (f : A -> M E C) (s : state E) :
  events_of (bind E m f s) =
  (events_of (m s) ++ events_of (f (value_of (m s)) (state_of (m s))))%list.
Proof.
  unfold bind, events_of, value_of, state_of.
  destruct (m s) as [[a t1] s1]. simpl.
  now destruct (f a s1) as [[c t2] s2].
Qed.



Lemma printed_app (t u : list event) :
  printed (t ++ u) = (printed t ++ printed u)%list.
Proof.
  induction t as [|e t IH]; simpl; [reflexivity|].
  destruct e; simpl; now rewrite IH.
Qed.

Lemma lookups_app (t u : list event) :
  lookups (t ++ u) = (lookups t ++ lookups u)%list.
Proof.
  induction t as [|e t IH]; simpl; [reflexivity|].
  destruct e as [| | |c]; simpl; try now rewrite IH.
  destruct c; simpl; now rewrite IH.
Qed.

Lemma printed_map_Printf (l : list string) : printed (map Printf l) = l.
Proof. induction l; simpl; congruence. Qed.

(** *** Address lookup *)

Lemma lookup_address_run (o : options) (dllpath : string) (modoffs : Z)
  (s : state E) :
  exists t,
    lookup_address B E o dllpath modoffs s =
    (tt, Call (Clookup_address dllpath modoffs) :: t,
     {| stdin_buf := stdin_buf E s; stdin_eof := stdin_eof E s;
        lib := snd (lib_lookup_address E dllpath modoffs (lib E s)) |}) /\
    forallb is_printf t = true.
Proof.
  unfold lookup_address, drsym_lookup_address, call, bind, when,
    print_debug_kind, printf, emit, ret.
  destruct (lib_lookup_address E dllpath modoffs (lib E s)) as [[symres sym] l'].
  cbn [fst snd stdin_buf stdin_eof lib].
  destruct ((symres =? DRSYM_SUCCESS B)
            || (symres =? DRSYM_ERROR_LINE_NOT_AVAILABLE B)).
  - destruct (verbose o), (MAX_FUNC_LEN <=? name_available_size sym),
      (show_func o), (symres =? DRSYM_ERROR_LINE_NOT_AVAILABLE B);
      cbn [app]; eexists; split; reflexivity.
  - destruct (verbose o), (show_func o); cbn [app]; eexists; split; reflexivity.
Qed.

(** C1. Address lookup, for every module path and offset.  On full
    success the location line [<file>:<line>+0x<line-offset>] is
    printed; on the line-not-available status [??:0] is printed in its
    place; in both cases, with [-f], the line
    [<symbol-name>+0x<offset-from-symbol-start>] comes right before it.
    On any other status the output is the line carrying the numeric
    status when verbose, the line [?] when not verbose but [-f] is set,
    and nothing otherwise.  The single-module query of an address and
    the batch line of a request print exactly what [lookup_address]
    prints.  (When found, the debug kind, if verbose, and the warning
    about an over-long name, if any, precede these lines.) *)
Theorem lookup_address_report (o : options) (dllpath : string) (modoffs : Z)
  (s : state E) (symres : Z) (sym : drsym_info_t) :
  DRSYM_SUCCESS B <> DRSYM_ERROR_LINE_NOT_AVAILABLE B ->
  fst (lib_lookup_address E dllpath modoffs (lib E s)) = (symres, sym) ->
  let out := printed (events_of (lookup_address B E o dllpath modoffs s)) in
  (symres = DRSYM_SUCCESS B ->
   out = (found_notes B o sym ++ function_line o modoffs sym ++
          [location_line sym])%list) /\
  (symres = DRSYM_ERROR_LINE_NOT_AVAILABLE B ->
   out = (found_notes B o sym ++ function_line o modoffs sym ++
          [("??:0" ++ nl)%string])%list) /\
  (symres <> DRSYM_SUCCESS B ->
   symres <> DRSYM_ERROR_LINE_NOT_AVAILABLE B ->
   out = if verbose o
         then ["drsym_lookup_address error " ++ fmt_d symres ++ nl]
         else if show_func o then ["?" ++ nl] else []) /\
  (forall arg, addr2sym o = true -> scan_x arg = Some modoffs ->
   printed (events_of (query B E o dllpath arg s)) = out) /\
  (forall ln, sscanf_path_x (MAXIMUM_PATH B) ln = Some (dllpath, modoffs) ->
   printed (events_of (batch_line B E o ln s)) = out).
Proof.
  intros Hdistinct Hlib out.
  assert (Hout : out =
    if (symres =? DRSYM_SUCCESS B)
       || (symres =? DRSYM_ERROR_LINE_NOT_AVAILABLE B)
    then (found_notes B o sym ++ function_line o modoffs sym ++
          [if symres =? DRSYM_ERROR_LINE_NOT_AVAILABLE B
           then ("??:0" ++ nl)%string else location_line sym])%list
    else if verbose o
         then ["drsym_lookup_address error " ++ fmt_d symres ++ nl]
         else if show_func o then ["?" ++ nl] else []).
  { subst out.
    unfold lookup_address, drsym_lookup_address, call, bind, when,
      print_debug_kind, printf, emit, ret, events_of,
      found_notes, function_line, location_line.
    destruct (lib_lookup_address E dllpath modoffs (lib E s)) as [[r i] l'].
    cbn [fst] in Hlib. injection Hlib as -> ->.
    cbn [fst snd].
    destruct ((symres =? DRSYM_SUCCESS B)
              || (symres =? DRSYM_ERROR_LINE_NOT_AVAILABLE B)).
    - destruct (verbose o), (MAX_FUNC_LEN <=? name_available_size sym),
        (show_func o), (symres =? DRSYM_ERROR_LINE_NOT_AVAILABLE B);
        reflexivity.
    - destruct (verbose o), (show_func o); reflexivity. }
  repeat split.
  - intros ->. rewrite Hout, Z.eqb_refl.
    apply Z.eqb_neq in Hdistinct. now rewrite Hdistinct.
  - intros ->. rewrite Hout, Z.eqb_refl, orb_true_r. reflexivity.
  - intros H1 H2. apply Z.eqb_neq in H1, H2. now rewrite Hout, H1, H2.
  - intros arg Ha Harg. unfold query. now rewrite Ha, Harg.
  - intros ln Hln. unfold batch_line. rewrite Hln.
    rewrite events_bind, printed_app.
    unfold fflush_stdout, emit. cbn [events_of fst snd printed].
    now rewrite app_nil_r.
Qed.

(** *** Symbol lookup *)

(** C2. Symbol-to-address lookup, for every module path and symbol
    name.  When the library resolves the name (status success, or the
    line-not-available status, which the program counts as found), the
    line [+0x<offset>], the offset in hexadecimal, is printed; on any
    other status the line [??] is printed, or, when verbose, in its
    place the line carrying the numeric status.  Nothing else is printed
    unless verbose, where the debug kind of the module may come first.
    A single-module query in symbol mode is exactly this lookup. *)
Theorem lookup_symbol_report (o : options) (dllpath sym : string)
  (s : state E) (symres modoffs : Z) :
  let pre := when E (verbose o) (get_and_print_debug_kind B E dllpath) s in
  fst (lib_lookup_symbol E dllpath sym (lib E (state_of pre)))
  = (symres, modoffs) ->
  let out := printed (events_of (lookup_symbol B E o dllpath sym s)) in
  (symres = DRSYM_SUCCESS B \/ symres = DRSYM_ERROR_LINE_NOT_AVAILABLE B ->
   out = (printed (events_of pre) ++ [("+0x" ++ fmt_x modoffs ++ nl)%string])%list)
  /\
  (symres <> DRSYM_SUCCESS B -> symres <> DRSYM_ERROR_LINE_NOT_AVAILABLE B ->
   out = (printed (events_of pre) ++
          [if verbose o
           then ("drsym error " ++ fmt_d symres ++ " looking up " ++
                 dq ++ sym ++ dq ++ " in " ++ dq ++ dllpath ++ dq ++ nl)%string
           else ("??" ++ nl)%string])%list)
  /\
  (verbose o = false -> printed (events_of pre) = [])
  /\
  (addr2sym o = false -> enumerate o = false -> search o = false ->
   query B E o dllpath sym s = lookup_symbol B E o dllpath sym s).
Proof.
  intros pre Hlib out.
  assert (Hout : out =
    (printed (events_of pre) ++
     [if (symres =? DRSYM_SUCCESS B)
         || (symres =? DRSYM_ERROR_LINE_NOT_AVAILABLE B)
      then ("+0x" ++ fmt_x modoffs ++ nl)%string
      else if verbose o
           then ("drsym error " ++ fmt_d symres ++ " looking up " ++
                 dq ++ sym ++ dq ++ " in " ++ dq ++ dllpath ++ dq ++ nl)%string
           else ("??" ++ nl)%string])%list).
  { subst out. unfold lookup_symbol.
    rewrite events_bind, printed_app. fold pre. f_equal.
    rewrite events_bind.
    unfold drsym_lookup_symbol, call.
    destruct (lib_lookup_symbol E dllpath sym (lib E (state_of pre)))
      as [[r i] l'].
    cbn [fst] in Hlib. injection Hlib as -> ->.
    cbn [events_of value_of state_of fst snd app printed].
    destruct ((symres =? DRSYM_SUCCESS B)
              || (symres =? DRSYM_ERROR_LINE_NOT_AVAILABLE B));
      [reflexivity|].
    now destruct (verbose o). }
  repeat split.
  - intros [-> | ->]; rewrite Hout.
    + now rewrite Z.eqb_refl.
    + now rewrite Z.eqb_refl, orb_true_r.
  - intros H1 H2. apply Z.eqb_neq in H1, H2. now rewrite Hout, H1, H2.
  - intros Hv. subst pre. now rewrite Hv.
  - intros H1 H2 H3. unfold query. now rewrite H1, H2, H3.
Qed.

(** *** Symbol enumeration *)




(** *** The batch loop *)

Lemma fgets_take_line (k : nat) (body rest : string) :
  all_chars not_newline body = true ->
  (String.length (body ++ nl) <= k)%nat ->
  fgets_take k ((body ++ nl) ++ rest) = (body ++ nl, rest, false).
Proof.
  revert k. induction body as [|c b IH]; intros k Hb Hk.
  - destruct k; [simpl in Hk; lia|]. reflexivity.
  - cbn [all_chars] in Hb. apply andb_prop in Hb as [Hc Hb].
    cbn [append String.length] in Hk |- *.
    destruct k as [|k]; [lia|]. cbn [fgets_take].
    unfold not_newline in Hc. apply negb_true_iff in Hc. rewrite Hc.
    rewrite IH by (auto; lia). reflexivity.
Qed.


(** One turn of the loop, unfolded. *)
Lemma batch_loop_S (n : nat) (o : options) (s : state E) :
  batch_loop B E (S n) o s =
  if stdin_eof E s then (tt, [], s)
  else
    match stdin_buf E s with
    | EmptyString =>
        (tt, [Fgets None],
         {| stdin_buf := EmptyString; stdin_eof := true; lib := lib E s |})
    | buf =>
        let '(l, r, e) := fgets_take (MAXIMUM_PATH B * 2 - 1) buf in
        let s' := {| stdin_buf := r; stdin_eof := stdin_eof E s || e;
                     lib := lib E s |} in
        if strcmp (c_str l) sentinel =? 0 then (tt, [Fgets (Some l)], s')
        else
          let '(_, t1, s1) := batch_line B E o (c_str l) s' in
          let '(_, t2, s2) := batch_loop B E n o s1 in
          (tt, Fgets (Some l) :: (t1 ++ t2)%list, s2)
    end.
Proof.
  cbn [batch_loop]. unfold bind at 1. unfold feof_stdin.
  destruct (stdin_eof E s) eqn:Heof; [reflexivity|].
  unfold bind at 1. unfold fgets.
  destruct (stdin_buf E s) as [|c b]; [reflexivity|].
  destruct (fgets_take (MAXIMUM_PATH B * 2 - 1) (String c b)) as [[l r] e].
  fold sentinel. rewrite Heof.
  destruct (strcmp (c_str l) sentinel =? 0); [reflexivity|].
  unfold bind.
  destruct (batch_line B E o (c_str l) _) as [[u t1] s1].
  destruct (batch_loop B E n o s1) as [[v t2] s2].
  destruct v. reflexivity.
Qed.

Lemma batch_line_run (o : options) (ln : string) (s : state E) :
  match sscanf_path_x (MAXIMUM_PATH B) ln with
  | Some (p, a) =>
      exists t,
        batch_line B E o ln s =
        (tt, Call (Clookup_address p a) :: (t ++ [Fflush])%list,
         {| stdin_buf := stdin_buf E s; stdin_eof := stdin_eof E s;
            lib := snd (lib_lookup_address E p a (lib E s)) |}) /\
        forallb is_printf t = true
  | None =>
      batch_line B E o ln s =
      (tt, if verbose o
           then [Printf ("Error: unknown input " ++ ln ++ nl)] else [], s)
  end.
Proof.
  unfold batch_line.
  destruct (sscanf_path_x (MAXIMUM_PATH B) ln) as [[p a]|].
  - destruct (lookup_address_run o p a s) as (t & Hrun & Ht).
    exists t. split; [|exact Ht].
    unfold bind. rewrite Hrun. reflexivity.
  - now destruct (verbose o).
Qed.

Lemma batch_line_stdin (o : options) (ln : string) (s : state E) :
  stdin_buf E (state_of (batch_line B E o ln s)) = stdin_buf E s /\
  stdin_eof E (state_of (batch_line B E o ln s)) = stdin_eof E s.
Proof.
  pose proof (batch_line_run o ln s) as H.
  destruct (sscanf_path_x (MAXIMUM_PATH B) ln) as [[p a]|].
  - destruct H as (t & -> & _). split; reflexivity.
  - rewrite H. split; reflexivity.
Qed.


Lemma sentinel_c_string : is_c_string sentinel.
Proof. reflexivity. Qed.

Lemma sentinel_is_line (limit : nat) : (6 <= limit)%nat -> is_line limit sentinel.
Proof.
  intros H. exists ";exit". repeat split. exact H.
Qed.

Lemma lookups_printf (t : list event) :
  forallb is_printf t = true -> lookups t = [].
Proof.
  induction t as [|e t IH]; [reflexivity|].
  destruct e; simpl; try discriminate. exact IH.
Qed.

(** A turn of the loop that reads a whole line. *)
Lemma batch_loop_line (n : nat) (o : options) (s : state E) (ln rest : string) :
  stdin_eof E s = false ->
  stdin_buf E s = ln ++ rest ->
  is_line (MAXIMUM_PATH B * 2 - 1) ln ->
  is_c_string ln ->
  batch_loop B E (S n) o s =
  if String.eqb ln sentinel
  then (tt, [Fgets (Some ln)], after_read E s rest)
  else
    let '(_, t1, s1) := batch_line B E o ln (after_read E s rest) in
    let '(_, t2, s2) := batch_loop B E n o s1 in
    (tt, Fgets (Some ln) :: (t1 ++ t2)%list, s2).
Proof.
  intros Heof Hbuf (body & -> & Hbody & Hlen) Hc.
  rewrite batch_loop_S, Heof, Hbuf.
  pose proof (fgets_take_line _ body rest Hbody Hlen) as Htake.
  destruct ((body ++ nl) ++ rest) as [|c b] eqn:Hnonempty.
  { destruct body; discriminate. }
  rewrite Htake. cbv zeta. rewrite Hc.
  rewrite (strcmp_eqb _ _ Hc sentinel_c_string).
  unfold after_read. rewrite Heof. reflexivity.
Qed.


(** *** The request/response discipline *)

Lemma request_response_answering (w : nat) (t k : list event) :
  forallb is_printf t = true ->
  request_response w Answering (t ++ k) = request_response w Answering k.
Proof.
  induction t as [|e t IH]; [reflexivity|].
  destruct e; simpl; try discriminate. exact IH.
Qed.

Lemma sscanf_path_x_sentinel (w : nat) : sscanf_path_x w sentinel = None.
Proof. destruct w; reflexivity. Qed.

Lemma request_response_batch_loop (o : options) (n : nat) (s : state E)
  (k : list event) :
  request_response (MAXIMUM_PATH B) Idle (events_of (batch_loop B E n o s) ++ k)
  = request_response (MAXIMUM_PATH B) Idle k.
Proof.
  revert s. induction n as [|n IH]; intros s; [reflexivity|].
  rewrite batch_loop_S.
  destruct (stdin_eof E s); [reflexivity|].
  destruct (stdin_buf E s) as [|c b]; [reflexivity|].
  destruct (fgets_take (MAXIMUM_PATH B * 2 - 1) (String c b)) as [[l r] e].
  cbv zeta.
  destruct (strcmp (c_str l) sentinel =? 0) eqn:Hs.
  - apply Z.eqb_eq in Hs.
    apply strcmp_0_eq in Hs; [|apply c_str_idem|exact sentinel_c_string].
    cbn [events_of fst snd app request_response].
    now rewrite Hs, sscanf_path_x_sentinel.
  - match goal with
    | |- context [batch_line B E o (c_str l) ?s'] =>
        pose proof (batch_line_run o (c_str l) s') as Hrun;
        destruct (batch_line B E o (c_str l) s') as [[u t1] s1]
    end.
    specialize (IH s1).
    destruct (batch_loop B E n o s1) as [[v t2] s2].
    cbn [events_of fst snd] in IH |- *.
    cbn [app request_response].
    destruct (sscanf_path_x (MAXIMUM_PATH B) (c_str l)) as [[p a]|].
    + destruct Hrun as (t & Hrun & Ht). injection Hrun as _ -> _.
      cbn [app request_response].
      rewrite String.eqb_refl, Z.eqb_refl. cbn [andb].
      rewrite <- !app_assoc. rewrite (request_response_answering _ t _ Ht).
      cbn [app request_response]. exact IH.
    + injection Hrun as _ -> _.
      destruct (verbose o); cbn [app request_response]; exact IH.
Qed.

(** A trace that keeps the discipline looks up exactly the requests it
    read, in the order it read them. *)
Lemma request_response_lookups (w : nat) (t : list event) (ph : phase) :
  request_response w ph t = true ->
  lookups t =
  match ph with
  | Expect p a => (p, a) :: requests_read w t
  | _ => requests_read w t
  end.
Proof.
  revert ph. induction t as [|e t IH]; intros ph.
  - destruct ph; simpl; [reflexivity|discriminate|discriminate].
  - destruct ph as [|p a|]; cbn [request_response].
    + destruct e as [x| |[raw|]|c]; cbn [lookups requests_read];
        try (intros H; exact (IH Idle H)).
      * destruct (sscanf_path_x w (c_str raw)) as [[p a]|]; intros H.
        -- exact (IH (Expect p a) H).
        -- exact (IH Idle H).
      * destruct c; try (intros H; exact (IH Idle H)). discriminate.
    + destruct e as [x| |r|c]; try discriminate.
      destruct c; try discriminate.
      intros H. apply andb_prop in H as [H Ht]. apply andb_prop in H as [Hp Ha].
      apply String.eqb_eq in Hp. apply Z.eqb_eq in Ha. subst.
      cbn [lookups requests_read]. f_equal. exact (IH Answering Ht).
    + destruct e as [x| |r|c]; try discriminate;
        cbn [lookups requests_read]; intros H.
      * exact (IH Answering H).
      * exact (IH Idle H).
Qed.

(** *** [main] *)

Lemma main_run (argv : list string) (s : state E) :
  main B E argv s =
  match parse_args B E (hd EmptyString argv) (tl argv) initial_options with
  | Exit out status => (status, out, s)
  | Parsed o rest =>
      if invalid_options o
      then (1, PRINT_USAGE B (hd EmptyString argv), s)
      else
        let '(r, l1) := lib_init E (lib E s) in
        let s1 := {| stdin_buf := stdin_buf E s; stdin_eof := stdin_eof E s;
                     lib := l1 |} in
        if negb (r =? DRSYM_SUCCESS B)
        then (1, [Call Cstandalone_init; Call Cinit;
                  Printf ("ERROR: unable to initialize symbol library" ++ nl)],
              s1)
        else
          let '(_, t, s2) := dispatch B E o rest s1 in
          let '(r', l3) := lib_exit E (lib E s2) in
          (0,
           ([Call Cstandalone_init; Call Cinit] ++ t ++
            Call Cexit ::
            (if negb (r' =? DRSYM_SUCCESS B)
             then [Printf ("WARNING: error cleaning up symbol library" ++ nl)%string]
             else []))%list,
           {| stdin_buf := stdin_buf E s2; stdin_eof := stdin_eof E s2;
              lib := l3 |})
  end.
Proof.
  unfold main.
  destruct (parse_args B E (hd EmptyString argv) (tl argv) initial_options)
    as [out status|o rest].
  - unfold bind, emit, ret. now rewrite app_nil_r.
  - destruct (invalid_options o).
    + unfold bind, emit, ret. now rewrite app_nil_r.
    + unfold bind at 1. unfold dr_standalone_init, call.
      unfold bind at 1. unfold drsym_init, call.
      cbn [lib stdin_buf stdin_eof].
      destruct (lib_init E (lib E s)) as [r l1].
      destruct (negb (r =? DRSYM_SUCCESS B)).
      * reflexivity.
      * unfold bind at 1.
        destruct (dispatch B E o rest _) as [[u t] s2].
        unfold bind at 1. unfold drsym_exit, call.
        destruct (lib_exit E (lib E s2)) as [r' l3].
        unfold bind, when, printf, emit, ret.
        destruct (negb (r' =? DRSYM_SUCCESS B)); reflexivity.
Qed.

Lemma dispatch_batch (o : options) (rest : list string) (s : state E) :
  addr2sym_multi o = true ->
  dispatch B E o rest s =
  batch_loop B E (S (String.length (stdin_buf E s))) o s.
Proof.
  intros H. unfold dispatch. rewrite H. cbn [negb].
  unfold bind, stdin_remaining.
  now destruct (batch_loop B E (S (String.length (stdin_buf E s))) o s)
    as [[u t] s2].
Qed.

(** *** The argument loop *)

(** Arguments the loop consumed entirely, without leaving [main] and
    without reaching the [break], do not influence what the loop does
    with the arguments that follow. *)
Lemma parse_args_app (mypath : string) (pre more : list string)
  (o o' : options) :
  parse_args B E mypath pre o = Parsed o' [] ->
  parse_args B E mypath (pre ++ more) o = parse_args B E mypath more o'.
Proof.
  remember (List.length pre) as n eqn:Hn.
  assert (Hle : (List.length pre <= n)%nat) by lia. clear Hn.
  revert pre o Hle. induction n as [|n IH]; intros pre o Hle.
  - destruct pre; [|simpl in Hle; lia].
    simpl. intros H. now injection H as ->.
  - destruct pre as [|a rest].
    + simpl. intros H. now injection H as ->.
    + cbn [app parse_args]. simpl in Hle.
      destruct (_stricmp a "-e" =? 0).
      { destruct rest as [|p rest']; [discriminate|].
        cbn [app]. destruct (resolve_module B E p); [|discriminate].
        apply IH. simpl in Hle. lia. }
      destruct (_stricmp a "-f" =? 0); [apply IH; lia|].
      destruct (_stricmp a "-v" =? 0); [apply IH; lia|].
      destruct ((_stricmp a "-a" =? 0) || (_stricmp a "-s" =? 0)).
      { destruct rest as [|x rest']; [discriminate|].
        destruct (_stricmp a "-a" =? 0); discriminate. }
      destruct (_stricmp a "--lines" =? 0); [apply IH; lia|].
      destruct (_stricmp a "-q" =? 0); [apply IH; lia|].
      destruct (_stricmp a "--enum" =? 0); [apply IH; lia|].
      destruct (_stricmp a "--list" =? 0); [apply IH; lia|].
      destruct (_stricmp a "--search" =? 0); [apply IH; lia|].
      destruct (_stricmp a "--searchall" =? 0); [apply IH; lia|].
      discriminate.
Qed.

(** The tests of the loop on an argument that is [-a], [-s] or [-e] up
    to case. *)
Lemma flag_tests (a flag : string) :
  _stricmp a flag = 0 ->
  forall other, (_stricmp a other =? 0) = String.eqb (fold_case flag) (fold_case other).
Proof.
  intros H other. apply stricmp_0 in H. now rewrite stricmp_eqb, H.
Qed.

Lemma parse_args_missing_value (mypath a : string) (o : options) :
  _stricmp a "-e" = 0 \/ _stricmp a "-a" = 0 \/ _stricmp a "-s" = 0 ->
  parse_args B E mypath [a] o = Exit (PRINT_USAGE B mypath) 1.
Proof.
  intros [H | [H | H]]; cbn [parse_args];
    rewrite !(flag_tests a _ H); reflexivity.
Qed.

Lemma parse_args_mode_flag (mypath a x : string) (rest : list string)
  (o : options) :
  _stricmp a "-a" = 0 \/ _stricmp a "-s" = 0 ->
  parse_args B E mypath (a :: x :: rest) o =
  Parsed (if _stricmp a "-a" =? 0 then set_addr2sym o else set_sym2addr o)
         (x :: rest).
Proof.
  intros [H | H]; cbn [parse_args];
    rewrite !(flag_tests a _ H); reflexivity.
Qed.


Lemma run_completed (argv : list string) (input : string) (l : lib_state E)
  (o : options) (rest : list string) :
  parse_args B E (hd EmptyString argv) (tl argv) initial_options
  = Parsed o rest ->
  invalid_options o = false ->
  fst (lib_init E l) = DRSYM_SUCCESS B ->
  let d := dispatch B E o rest (initialised_state E input l) in
  run B E argv input l =
  (0, ([Call Cstandalone_init; Call Cinit] ++ events_of d ++
       Call Cexit ::
       teardown_warning B (fst (lib_exit E (lib E (state_of d)))))%list).
Proof.
  intros Hparse Hvalid Hinit d. unfold run. rewrite main_run, Hparse, Hvalid.
  cbn [lib stdin_buf stdin_eof]. subst d. unfold initialised_state.
  destruct (lib_init E l) as [r l1]. cbn [fst snd] in *. subst r.
  rewrite Z.eqb_refl. cbn [negb].
  destruct (dispatch B E o rest _) as [[u t] s2].
  cbn [events_of state_of fst snd].
  unfold teardown_warning.
  destruct (lib_exit E (lib E s2)) as [r' l3]. cbn [fst snd].
  now destruct (r' =? DRSYM_SUCCESS B).
Qed.

Lemma run_usage (argv : list string) (input : string) (l : lib_state E)
  (o : options) (rest : list string) :
  parse_args B E (hd EmptyString argv) (tl argv) initial_options
  = Parsed o rest ->
  invalid_options o = true ->
  run B E argv input l = (1, PRINT_USAGE B (hd EmptyString argv)).
Proof.
  intros Hparse Hinvalid. unfold run.
  now rewrite main_run, Hparse, Hinvalid.
Qed.

Lemma run_exit (argv : list string) (input : string) (l : lib_state E)
  (out : list event) (status : Z) :
  parse_args B E (hd EmptyString argv) (tl argv) initial_options
  = Exit out status ->
  run B E argv input l = (status, out).
Proof.
  intros Hparse. unfold run. now rewrite main_run, Hparse.
Qed.

Lemma no_single_module_call_app (t u : list event) :
  no_single_module_call (t ++ u) =
  no_single_module_call t && no_single_module_call u.
Proof. apply forallb_app. Qed.

Lemma no_single_module_call_printf (t : list event) :
  forallb is_printf t = true -> no_single_module_call t = true.
Proof.
  induction t as [|e t IH]; [reflexivity|].
  destruct e; simpl; try discriminate. exact IH.
Qed.

Lemma batch_loop_no_single_module_call (o : options) (n : nat) (s : state E) :
  no_single_module_call (events_of (batch_loop B E n o s)) = true.
Proof.
  revert s. induction n as [|n IH]; intros s; [reflexivity|].
  rewrite batch_loop_S.
  destruct (stdin_eof E s); [reflexivity|].
  destruct (stdin_buf E s) as [|c b]; [reflexivity|].
  destruct (fgets_take (MAXIMUM_PATH B * 2 - 1) (String c b)) as [[l r] e].
  cbv zeta.
  destruct (strcmp (c_str l) sentinel =? 0); [reflexivity|].
  match goal with
  | |- context [batch_line B E o (c_str l) ?s'] =>
      pose proof (batch_line_run o (c_str l) s') as Hrun;
      destruct (batch_line B E o (c_str l) s') as [[u t1] s1]
  end.
  specialize (IH s1).
  destruct (batch_loop B E n o s1) as [[v t2] s2].
  cbn [events_of fst snd] in IH |- *.
  change (Fgets (Some l) :: (t1 ++ t2)%list)
    with ([Fgets (Some l)] ++ (t1 ++ t2))%list.
  rewrite !no_single_module_call_app, IH, andb_true_r.
  destruct (sscanf_path_x (MAXIMUM_PATH B) (c_str l)) as [[p a]|].
  - destruct Hrun as (t & Hrun & Ht). injection Hrun as _ -> _.
    change (Call (Clookup_address p a) :: (t ++ [Fflush])%list)
      with ([Call (Clookup_address p a)] ++ (t ++ [Fflush]))%list.
    rewrite !no_single_module_call_app.
    now rewrite (no_single_module_call_printf t Ht).
  - injection Hrun as _ -> _. now destruct (verbose o).
Qed.

(** C4. Batch mode is a strict request/response exchange.  In every
    trace of the batch loop, and of a whole run in batch mode, a request
    line that has been read is followed at once by the lookup of that
    request, whose output is flushed before the next line is read, and
    no lookup happens without a request; so the lookups performed are
    exactly the requests read, in the order in which they were read. *)
Theorem batch_request_response :
  (forall o n (s : state E),
     let t := events_of (batch_loop B E n o s) in
     request_response (MAXIMUM_PATH B) Idle t = true /\
     lookups t = requests_read (MAXIMUM_PATH B) t) /\
  (forall argv input (l : lib_state E) o rest,
     parse_args B E (hd EmptyString argv) (tl argv) initial_options
     = Parsed o rest ->
     addr2sym_multi o = true ->
     let t := trace B E argv input l in
     request_response (MAXIMUM_PATH B) Idle t = true /\
     lookups t = requests_read (MAXIMUM_PATH B) t).
Proof.
  assert (Hloop : forall o n (s : state E),
    request_response (MAXIMUM_PATH B) Idle (events_of (batch_loop B E n o s))
    = true).
  { intros o n s.
    rewrite <- (app_nil_r (events_of (batch_loop B E n o s))).
    apply request_response_batch_loop. }
  split.
  - intros o n s t. split; [apply Hloop|].
    apply (request_response_lookups _ t Idle). apply Hloop.
  - intros argv input l o rest Hparse Hmulti t.
    assert (Ht : request_response (MAXIMUM_PATH B) Idle t = true).
    { subst t. unfold trace, run. rewrite main_run, Hparse.
      destruct (invalid_options o); [reflexivity|].
      cbn [lib stdin_buf stdin_eof].
      destruct (lib_init E l) as [r l1].
      destruct (negb (r =? DRSYM_SUCCESS B)); [reflexivity|].
      rewrite (dispatch_batch o rest _ Hmulti).
      match goal with
      | |- context [batch_loop B E ?n o ?s1] =>
          pose proof (request_response_batch_loop o n s1) as Hk;
          destruct (batch_loop B E n o s1) as [[u t1] s2]
      end.
      destruct (lib_exit E (lib E s2)) as [r' l3].
      cbn [fst snd events_of] in Hk |- *.
      cbn [app request_response]. rewrite Hk.
      now destruct (negb (r' =? DRSYM_SUCCESS B)). }
    split; [exact Ht|].
    apply (request_response_lookups _ t Idle Ht).
Qed.

(** *** Validation and exit status *)



(** A run refused by the argument loop or by the check after it exits
    with status 1 and never calls the library. *)
Lemma parse_args_exit (mypath : string) (args : list string) (o : options)
  (out : list event) (status : Z) :
  parse_args B E mypath args o = Exit out status ->
  status = 1 /\ no_library_call out = true.
Proof.
  remember (List.length args) as n eqn:Hn.
  assert (Hle : (List.length args <= n)%nat) by lia. clear Hn.
  revert args o Hle. induction n as [|n IH]; intros args o Hle.
  - destruct args; [discriminate|simpl in Hle; lia].
  - destruct args as [|a rest]; [discriminate|].
    cbn [parse_args]. simpl in Hle.
    assert (Husage : Exit (PRINT_USAGE B mypath) 1 = Exit out status ->
                     status = 1 /\ no_library_call out = true).
    { intros H. injection H as <- <-. split; reflexivity. }
    destruct (_stricmp a "-e" =? 0).
    { destruct rest as [|p rest']; [exact Husage|].
      destruct (resolve_module B E p).
      - apply IH. simpl in Hle. lia.
      - intros H. injection H as <- <-. split; reflexivity. }
    destruct (_stricmp a "-f" =? 0); [apply IH; lia|].
    destruct (_stricmp a "-v" =? 0); [apply IH; lia|].
    destruct ((_stricmp a "-a" =? 0) || (_stricmp a "-s" =? 0)).
    { destruct rest as [|x rest']; [exact Husage|].
      destruct (_stricmp a "-a" =? 0); discriminate. }
    destruct (_stricmp a "--lines" =? 0); [apply IH; lia|].
    destruct (_stricmp a "-q" =? 0); [apply IH; lia|].
    destruct (_stricmp a "--enum" =? 0); [apply IH; lia|].
    destruct (_stricmp a "--list" =? 0); [apply IH; lia|].
    destruct (_stricmp a "--search" =? 0); [apply IH; lia|].
    destruct (_stricmp a "--searchall" =? 0); [apply IH; lia|].
    exact Husage.
Qed.



(** C6, as the program has it.  Batch mode excludes a module path: when
    the argument loop ends with [-q] and a module path, the program
    prints the usage text and exits with status 1.  Without a module
    path [-q] is accepted whatever other mode flags ([-a], [-s],
    [--list], [--lines]) were given: once the library is initialised the
    run is the batch loop, the other flags select nothing, no
    single-module handler calls the library, and the exit status is 0. *)
Theorem batch_mode_exclusive (mypath : string) (args : list string)
  (input : string) (l : lib_state E) (o : options) (rest : list string) :
  parse_args B E mypath args initial_options = Parsed o rest ->
  addr2sym_multi o = true ->
  (dll o <> None ->
   run B E (mypath :: args) input l = (1, PRINT_USAGE B mypath)) /\
  (dll o = None ->
   fst (lib_init E l) = DRSYM_SUCCESS B ->
   let d := batch_loop B E (S (String.length input)) o
              (initialised_state E input l) in
   run B E (mypath :: args) input l =
   (0, ([Call Cstandalone_init; Call Cinit] ++ events_of d ++
        Call Cexit ::
        teardown_warning B (fst (lib_exit E (lib E (state_of d)))))%list) /\
   no_single_module_call (trace B E (mypath :: args) input l) = true).
Proof.
  intros Hparse Hmulti. split.
  - intros Hdll. apply (run_usage (mypath :: args) input l o rest Hparse).
    unfold invalid_options. rewrite Hmulti.
    destruct (dll o); [reflexivity|congruence].
  - intros Hdll Hinit d.
    assert (Hvalid : invalid_options o = false).
    { unfold invalid_options. rewrite Hmulti, Hdll.
      now destruct (sym2addr o), (addr2sym o). }
    pose proof (run_completed (mypath :: args) input l o rest
                  Hparse Hvalid Hinit) as Hrun.
    cbv zeta in Hrun. rewrite (dispatch_batch o rest _ Hmulti) in Hrun.
    fold d in Hrun. split; [exact Hrun|].
    unfold trace. rewrite Hrun. cbn [snd app].
    cbn [no_single_module_call forallb is_single_module_call negb andb].
    fold (no_single_module_call
            (events_of d ++
             Call Cexit ::
             teardown_warning B (fst (lib_exit E (lib E (state_of d)))))).
    rewrite no_single_module_call_app.
    subst d. rewrite batch_loop_no_single_module_call.
    unfold teardown_warning.
    now destruct (fst (lib_exit E _) =? DRSYM_SUCCESS B).
Qed.

(** C9. A run that passes the argument checks and the initialisation of
    the library exits with status 0, whatever the library answers to
    the lookups and enumerations of the run and to the teardown; a
    teardown status other than success adds one warning line, the last
    output of the run, and nothing else. *)
Theorem completed_run_exits_0 (argv : list string) (input : string)
  (l : lib_state E) (o : options) (rest : list string) :
  parse_args B E (hd EmptyString argv) (tl argv) initial_options
  = Parsed o rest ->
  invalid_options o = false ->
  fst (lib_init E l) = DRSYM_SUCCESS B ->
  let d := dispatch B E o rest (initialised_state E input l) in
  let teardown := fst (lib_exit E (lib E (state_of d))) in
  exit_status B E argv input l = 0 /\
  trace B E argv input l =
  ([Call Cstandalone_init; Call Cinit] ++ events_of d ++
   Call Cexit ::
   (if teardown =? DRSYM_SUCCESS B then []
    else [Printf ("WARNING: error cleaning up symbol library" ++ nl)%string]))%list.
Proof.
  intros Hparse Hvalid Hinit d teardown.
  pose proof (run_completed argv input l o rest Hparse Hvalid Hinit) as Hrun.
  unfold exit_status, trace. rewrite Hrun. split; reflexivity.
Qed.

(** C8. Once the argument loop has met [-a] or [-s], every argument
    after it is a query: the loop stops there, so the options are those
    set before the flag whatever the remaining arguments look like, and
    the remaining arguments, all of them and in order, are what the
    query loop runs over, one query each. *)
Theorem positional_after_mode_flag (mypath : string) (pre : list string)
  (o1 : options) (a x : string) (rest : list string) :
  parse_args B E mypath pre initial_options = Parsed o1 [] ->
  _stricmp a "-a" = 0 \/ _stricmp a "-s" = 0 ->
  let o := if _stricmp a "-a" =? 0 then set_addr2sym o1 else set_sym2addr o1 in
  let queries := x :: rest in
  parse_args B E mypath (pre ++ a :: queries) initial_options
  = Parsed o queries /\
  (verbose o = verbose o1 /\ show_func o = show_func o1 /\
   dll o = dll o1 /\ addr2sym_multi o = addr2sym_multi o1 /\
   enumerate o = enumerate o1 /\ enumerate_all o = enumerate_all o1 /\
   search o = search o1 /\ searchall o = searchall o1 /\
   enum_lines o = enum_lines o1) /\
  (addr2sym_multi o1 = false -> enum_lines o1 = false ->
   enumerate_all o1 = false ->
   forall s : state E,
     dispatch B E o queries s = query_loop B E o (module_of o) queries s) /\
  (forall d q qs (s : state E),
     events_of (query_loop B E o d (q :: qs) s) =
     (events_of (query B E o d q s) ++
      events_of (query_loop B E o d qs (state_of (query B E o d q s))))%list).
Proof.
  intros Hpre Ha o queries. split; [|split; [|split]].
  - rewrite (parse_args_app _ _ _ _ _ Hpre).
    now apply parse_args_mode_flag.
  - subst o. destruct (_stricmp a "-a" =? 0); repeat split; reflexivity.
  - intros Hm Hl Hall s. unfold dispatch.
    assert (Ho : addr2sym_multi o = false /\ enum_lines o = false /\
                 enumerate_all o = false).
    { subst o. destruct (_stricmp a "-a" =? 0); cbn; auto. }
    destruct Ho as (-> & -> & ->). reflexivity.
  - intros d q qs s. cbn [query_loop]. now rewrite events_bind.
Qed.

(** C10. A flag that takes a value and comes last.  When the argument
    loop meets [-e], [-a] or [-s] as the last argument, the program
    prints the usage text and exits with status 1 without calling the
    library, although the usage text it prints shows the queries after
    [-a] and [-s] in brackets. *)
Theorem missing_value_rejected (mypath : string) (pre : list string)
  (o : options) (a : string) (input : string) (l : lib_state E) :
  parse_args B E mypath pre initial_options = Parsed o [] ->
  _stricmp a "-e" = 0 \/ _stricmp a "-a" = 0 \/ _stricmp a "-s" = 0 ->
  run B E (mypath :: pre ++ [a]) input l = (1, PRINT_USAGE B mypath) /\
  no_library_call (trace B E (mypath :: pre ++ [a]) input l) = true /\
  (exists u v, PRINT_USAGE B mypath = [Printf (USAGE_PRE mypath); u; v]) /\
  (exists u v,
     USAGE_PRE mypath =
     u ++ " -a [<address relative to module base> ...]" ++ v) /\
  (exists u v,
     USAGE_PRE mypath = u ++ " -s [<symbol1> <symbol2> ...]" ++ v).
Proof.
  intros Hpre Ha.
  assert (Hrun : run B E (mypath :: pre ++ [a]) input l
                 = (1, PRINT_USAGE B mypath)).
  { apply run_exit. cbn [hd tl]. rewrite (parse_args_app _ _ _ _ _ Hpre).
    now apply parse_args_missing_value. }
  split; [exact Hrun|]. split; [unfold trace; now rewrite Hrun|].
  split; [now eexists; eexists|]. split.
  - exists ("Usage:" ++ nl ++ "Look up addresses for one module:" ++ nl ++
            "  " ++ mypath ++ " -e <module> [-f] [-v]").
    eexists. unfold USAGE_PRE.
    rewrite !append_assoc. cbn [append]. reflexivity.
  - exists ("Usage:" ++ nl ++ "Look up addresses for one module:" ++ nl ++
            "  " ++ mypath ++
            " -e <module> [-f] [-v] -a [<address relative to module base> ...]"
            ++ nl ++ "Look up addresses for multiple modules:" ++ nl ++
            "  " ++ mypath ++
            " [-f] [-v] -q <pairs of [module_path;address relative to module base] on stdin>"
            ++ nl ++ "Look up exact symbols for one module:" ++ nl ++
            "  " ++ mypath ++ " -e <module> [-v] [--enum]").
    exists nl. unfold USAGE_PRE.
    rewrite !append_assoc. cbn [append]. reflexivity.
Qed.

End Theory.

(** ** The theorems at work on the sample library *)

Example request_response_rejects_unflushed :
  request_response 260 Idle
    [Fgets (Some ("a.dll;10" ++ nl)); Call (Clookup_address "a.dll" 16);
     Printf ("a.c:10+0x0" ++ nl); Fgets None] = false.
Proof. reflexivity. Qed.

Example request_response_rejects_reordering :
  request_response 260 Idle
    [Fgets (Some ("a.dll;10" ++ nl)); Call (Clookup_address "a.dll" 5);
     Fflush] = false.
Proof. reflexivity. Qed.

Example option_after_mode_flag_is_data :
  run build_linux sample ["symquery"; "-e"; "a.dll"; "-a"; "10"; "-v"; "--list"]
    "" tt =
  (0, [Call Cstandalone_init; Call Cinit;
       Call (Clookup_address "a.dll" 16); Printf ("a.c:10+0x0" ++ nl);
       Printf ("ERROR: unknown input -v" ++ nl);
       Printf ("ERROR: unknown input --list" ++ nl);
       Call Cexit]).
Proof. reflexivity. Qed.

Example batch_of_the_spec :
  run build_linux sample ["symquery"; "-q"]
    ("a.dll;5" ++ nl ++ "a.dll;10" ++ nl ++ ";exit" ++ nl) tt =
  (0, [Call Cstandalone_init; Call Cinit;
       Fgets (Some ("a.dll;5" ++ nl));
       Call (Clookup_address "a.dll" 5); Printf ("??:0" ++ nl); Fflush;
       Fgets (Some ("a.dll;10" ++ nl));
       Call (Clookup_address "a.dll" 16); Printf ("a.c:10+0x0" ++ nl); Fflush;
       Fgets (Some (";exit" ++ nl));
       Call Cexit]).
Proof. reflexivity. Qed.

Example batch_output_of_the_spec :
  stdout_of
    (trace build_linux sample ["symquery"; "-q"]
       ("a.dll;5" ++ nl ++ "a.dll;10" ++ nl ++ ";exit" ++ nl) tt)
  = "??:0" ++ nl ++ "a.c:10+0x0" ++ nl.
Proof. reflexivity. Qed.

Lemma lookup_address_report_witness :
  DRSYM_SUCCESS build_windows <> DRSYM_ERROR_LINE_NOT_AVAILABLE build_windows /\
  printed
    (events_of
       (lookup_address build_windows sample (set_show_func initial_options)
          "a.dll" 20 (initial_state sample "" tt)))
  = [("main+0x4" ++ nl)%string; ("a.c:10+0x4" ++ nl)%string] /\
  printed
    (events_of
       (lookup_address build_windows sample (set_show_func initial_options)
          "a.dll" 5 (initial_state sample "" tt)))
  = [("_start+0x5" ++ nl)%string; ("??:0" ++ nl)%string] /\
  printed
    (events_of
       (lookup_address build_windows sample (set_show_func initial_options)
          "a.dll" 256 (initial_state sample "" tt)))
  = [("?" ++ nl)%string].
Proof.
  assert (Hd : DRSYM_SUCCESS build_windows
               <> DRSYM_ERROR_LINE_NOT_AVAILABLE build_windows)
    by discriminate.
  split; [exact Hd|]. split; [|split].
  - destruct (lookup_address_report build_windows sample
                (set_show_func initial_options) "a.dll" 20
                (initial_state sample "" tt) 0 (info_main 20) Hd eq_refl)
      as (H & _).
    exact (H eq_refl).
  - destruct (lookup_address_report build_windows sample
                (set_show_func initial_options) "a.dll" 5
                (initial_state sample "" tt) 6 info_start Hd eq_refl)
      as (_ & H & _).
    exact (H eq_refl).
  - destruct (lookup_address_report build_windows sample
                (set_show_func initial_options) "a.dll" 256
                (initial_state sample "" tt) 5 info_start Hd eq_refl)
      as (_ & _ & H & _).
    apply H; discriminate.
Defined.

Lemma lookup_symbol_report_witness :
  printed
    (events_of
       (lookup_symbol build_windows sample initial_options "a.dll" "main"
          (initial_state sample "" tt)))
  = [("+0x10" ++ nl)%string] /\
  printed
    (events_of
       (lookup_symbol build_windows sample initial_options "a.dll" "nothing"
          (initial_state sample "" tt)))
  = [("??" ++ nl)%string] /\
  printed
    (events_of
       (lookup_symbol build_windows sample (set_verbose initial_options)
          "a.dll" "nothing" (initial_state sample "" tt)))
  = [debug_kind_text build_windows 1027;
     ("drsym error 5 looking up " ++ dq ++ "nothing" ++ dq ++ " in " ++
      dq ++ "a.dll" ++ dq ++ nl)%string].
Proof.
  split; [|split].
  - destruct (lookup_symbol_report build_windows sample initial_options
                "a.dll" "main" (initial_state sample "" tt) 0 16 eq_refl)
      as (H & _).
    apply H. left. reflexivity.
  - destruct (lookup_symbol_report build_windows sample initial_options
                "a.dll" "nothing" (initial_state sample "" tt) 5 0 eq_refl)
      as (_ & H & _).
    apply H; discriminate.
  - destruct (lookup_symbol_report build_windows sample
                (set_verbose initial_options)
                "a.dll" "nothing" (initial_state sample "" tt) 5 0 eq_refl)
      as (_ & H & _).
    apply H; discriminate.
Defined.


Lemma batch_request_response_witness :
  let t := trace build_linux sample ["symquery"; "-f"; "-q"]
             ("a.dll;5" ++ nl ++ "no request" ++ nl ++ "a.dll;10" ++ nl) tt in
  parse_args build_linux sample "symquery" ["-f"; "-q"] initial_options
  = Parsed (set_addr2sym_multi (set_show_func initial_options)) [] /\
  request_response 260 Idle t = true /\
  lookups t = [("a.dll", 5); ("a.dll", 16)].
Proof.
  intros t. split; [reflexivity|].
  destruct (batch_request_response build_linux sample) as [_ H].
  exact (H ["symquery"; "-f"; "-q"]
           ("a.dll;5" ++ nl ++ "no request" ++ nl ++ "a.dll;10" ++ nl) tt
           (set_addr2sym_multi (set_show_func initial_options)) []
           eq_refl eq_refl).
Defined.


(** C6 as stated does not hold: [-q] together with [--list], [--lines],
    [-a] or [-s], and no module path, is not a usage error; the run is
    an ordinary batch run that exits with status 0. *)
Lemma batch_with_mode_flag_accepted :
  run build_linux sample ["symquery"; "-q"; "--list"] ("a.dll;10" ++ nl) tt
  = (0, [Call Cstandalone_init; Call Cinit;
         Fgets (Some ("a.dll;10" ++ nl));
         Call (Clookup_address "a.dll" 16); Printf ("a.c:10+0x0" ++ nl); Fflush;
         Fgets None; Call Cexit]) /\
  run build_linux sample ["symquery"; "-q"; "--list"] ("a.dll;10" ++ nl) tt
  <> (1, PRINT_USAGE build_linux "symquery") /\
  exit_status build_linux sample ["symquery"; "-q"; "--lines"] "" tt = 0 /\
  exit_status build_linux sample ["symquery"; "-q"; "-a"; "10"] "" tt = 0 /\
  exit_status build_linux sample ["symquery"; "-q"; "-s"; "main"] "" tt = 0.
Proof.
  split; [reflexivity|]. split; [discriminate|]. repeat split.
Qed.

Lemma batch_mode_exclusive_witness :
  run build_linux sample ["symquery"; "-e"; "a.dll"; "-q"] "" tt
  = (1, PRINT_USAGE build_linux "symquery") /\
  run build_linux sample ["symquery"; "-q"; "--list"] ("a.dll;10" ++ nl) tt
  = (0, [Call Cstandalone_init; Call Cinit;
         Fgets (Some ("a.dll;10" ++ nl));
         Call (Clookup_address "a.dll" 16); Printf ("a.c:10+0x0" ++ nl); Fflush;
         Fgets None; Call Cexit]) /\
  no_single_module_call
    (trace build_linux sample ["symquery"; "-q"; "--list"] ("a.dll;10" ++ nl) tt)
  = true.
Proof.
  split.
  - destruct (batch_mode_exclusive build_linux sample "symquery"
                ["-e"; "a.dll"; "-q"] "" tt
                (set_addr2sym_multi (set_dll "a.dll" initial_options)) []
                eq_refl eq_refl) as [H _].
    apply H. discriminate.
  - destruct (batch_mode_exclusive build_linux sample "symquery"
                ["-q"; "--list"] ("a.dll;10" ++ nl) tt
                (set_enumerate_all (set_addr2sym_multi initial_options)) []
                eq_refl eq_refl) as [_ H].
    exact (H eq_refl eq_refl).
Defined.


Lemma positional_after_mode_flag_witness :
  parse_args build_linux sample "symquery"
    (["-e"; "a.dll"] ++ "-A" :: ["10"; "-v"; "--list"]) initial_options
  = Parsed (set_addr2sym (set_dll "a.dll" initial_options))
      ["10"; "-v"; "--list"] /\
  verbose (set_addr2sym (set_dll "a.dll" initial_options)) = false.
Proof.
  destruct (positional_after_mode_flag build_linux sample "symquery"
              ["-e"; "a.dll"] (set_dll "a.dll" initial_options)
              "-A" "10" ["-v"; "--list"] eq_refl (or_introl eq_refl))
    as (Hparse & (Hverbose & _) & _).
  split; [exact Hparse | exact Hverbose].
Defined.

Lemma completed_run_exits_0_witness :
  exit_status build_linux (sample_env 0 1)
    ["symquery"; "-e"; "a.dll"; "-a"; "100"; "zz"] "" tt = 0 /\
  trace build_linux (sample_env 0 1)
    ["symquery"; "-e"; "a.dll"; "-a"; "100"; "zz"] "" tt
  = [Call Cstandalone_init; Call Cinit;
     Call (Clookup_address "a.dll" 256);
     Printf ("ERROR: unknown input zz" ++ nl);
     Call Cexit;
     Printf ("WARNING: error cleaning up symbol library" ++ nl)].
Proof.
  exact (completed_run_exits_0 build_linux (sample_env 0 1)
           ["symquery"; "-e"; "a.dll"; "-a"; "100"; "zz"] "" tt
           (set_addr2sym (set_dll "a.dll" initial_options)) ["100"; "zz"]
           eq_refl eq_refl eq_refl).
Defined.

Lemma missing_value_rejected_witness :
  run build_linux sample ["symquery"; "-e"; "a.dll"; "-a"] "" tt
  = (1, PRINT_USAGE build_linux "symquery") /\
  run build_linux sample ["symquery"; "-q"; "-E"] "" tt
  = (1, PRINT_USAGE build_linux "symquery") /\
  run build_linux sample ["symquery"; "-e"; "a.dll"; "--enum"; "-s"] "" tt
  = (1, PRINT_USAGE build_linux "symquery").
Proof.
  split; [|split].
  - apply (missing_value_rejected build_linux sample "symquery"
             ["-e"; "a.dll"] (set_dll "a.dll" initial_options) "-a" "" tt
             eq_refl).
    right. left. reflexivity.
  - apply (missing_value_rejected build_linux sample "symquery"
             ["-q"] (set_addr2sym_multi initial_options) "-E" "" tt eq_refl).
    left. reflexivity.
  - apply (missing_value_rejected build_linux sample "symquery"
             ["-e"; "a.dll"; "--enum"]
             (set_enumerate (set_dll "a.dll" initial_options)) "-s" "" tt
             eq_refl).
    right. right. reflexivity.
Defined.

(** ** Further properties of the C library model: printing and reading
       back a hexadecimal number *)

Lemma scan_xdigits_stop (v : Z) (rest : string) :
  starts_xdigit rest = false -> scan_xdigits v rest = v.
Proof.
  destruct rest as [|c r]; [reflexivity|]. simpl. unfold isxdigit.
  now destruct (xdigit_val c).
Qed.

Lemma scan_xdigits_acc (d : Hexadecimal.uint) (acc : positive) (rest : string) :
  scan_xdigits (Z.pos acc)
    (HexadecimalString.NilEmpty.string_of_uint d ++ rest)
  = scan_xdigits (Z.pos (Pos.of_hex_uint_acc d acc)) rest.
Proof.
  revert acc.
  induction d as [|d IH|d IH|d IH|d IH|d IH|d IH|d IH|d IH|d IH|d IH|d IH
                  |d IH|d IH|d IH|d IH|d IH];
    intros acc; [reflexivity|..];
    cbn [HexadecimalString.NilEmpty.string_of_uint append scan_xdigits
         Pos.of_hex_uint_acc];
    match goal with
    | |- context [xdigit_val ?c] =>
        let v := eval vm_compute in (xdigit_val c) in
        change (xdigit_val c) with v
    end;
    cbv iota beta; rewrite <- IH; f_equal; lia.
Qed.

Lemma scan_xdigits_uint (d : Hexadecimal.uint) (rest : string) :
  scan_xdigits 0 (HexadecimalString.NilEmpty.string_of_uint d ++ rest)
  = scan_xdigits (Z.of_N (Pos.of_hex_uint d)) rest.
Proof.
  induction d as [|d IH|d IH|d IH|d IH|d IH|d IH|d IH|d IH|d IH|d IH|d IH
                  |d IH|d IH|d IH|d IH|d IH];
    [reflexivity|..];
    cbn [HexadecimalString.NilEmpty.string_of_uint append scan_xdigits
         Pos.of_hex_uint];
    match goal with
    | |- context [xdigit_val ?c] =>
        let v := eval vm_compute in (xdigit_val c) in
        change (xdigit_val c) with v
    end;
    cbv iota beta;
    [exact IH | apply scan_xdigits_acc ..].
Qed.

Lemma string_of_uint_xdigits (d : Hexadecimal.uint) :
  all_chars isxdigit (HexadecimalString.NilEmpty.string_of_uint d) = true.
Proof.
  induction d; [reflexivity|..];
    cbn [HexadecimalString.NilEmpty.string_of_uint all_chars];
    rewrite IHd; reflexivity.
Qed.

Lemma to_hex_uint_nonnil (m : N) : N.to_hex_uint m <> Hexadecimal.Nil.
Proof.
  destruct m as [|p]; [discriminate|].
  apply HexadecimalPos.Unsigned.to_uint_nonnil.
Qed.

(** What [%x] prints: at least one digit, hexadecimal digits only, and
    the value they denote is the number printed. *)
Lemma fmt_x_digits (n : Z) :
  exists c r,
    fmt_x n = String c r /\ all_chars isxdigit (fmt_x n) = true /\
    forall rest, scan_xdigits 0 (fmt_x n ++ rest)
                 = scan_xdigits (to_uint n) rest.
Proof.
  unfold fmt_x.
  pose proof (to_hex_uint_nonnil (Z.to_N (to_uint n))) as Hnn.
  assert (Hval : Z.of_N (Pos.of_hex_uint (N.to_hex_uint (Z.to_N (to_uint n))))
                 = to_uint n).
  { change (Pos.of_hex_uint (N.to_hex_uint (Z.to_N (to_uint n))))
      with (N.of_hex_uint (N.to_hex_uint (Z.to_N (to_uint n)))).
    rewrite HexadecimalN.Unsigned.of_to.
    apply Z2N.id. unfold to_uint. apply Z.mod_pos_bound. reflexivity. }
  destruct (N.to_hex_uint (Z.to_N (to_uint n))) as
    [|d|d|d|d|d|d|d|d|d|d|d|d|d|d|d|d] eqn:Hd; [congruence|..];
    (eexists; eexists; split; [reflexivity|]; split;
     [apply string_of_uint_xdigits
     |intros rest; rewrite <- Hval; apply scan_xdigits_uint]).
Qed.

Lemma xdigit_not_x (c : ascii) :
  isxdigit c = true -> (code c =? 120) = false /\ (code c =? 88) = false.
Proof.
  unfold isxdigit, xdigit_val. cbv zeta. intros H. split; code_cases.
Qed.

Lemma ends_number_stop (rest : string) :
  ends_number rest -> starts_xdigit rest = false.
Proof. intros [-> | [r ->]]; reflexivity. Qed.

Lemma strip_0x_digits (ds rest : string) :
  all_chars isxdigit ds = true -> ends_number rest ->
  strip_0x (ds ++ rest) = ds ++ rest.
Proof.
  intros Hds Hrest.
  destruct ds as [|c1 [|c2 ds]].
  - destruct Hrest as [-> | [r ->]]; [reflexivity|].
    cbn [append]. now destruct r as [|x [|d r]].
  - destruct Hrest as [-> | [r ->]]; [reflexivity|].
    cbn [append]. unfold strip_0x. destruct r as [|d r]; [reflexivity|].
    change (code newline =? 120) with false.
    change (code newline =? 88) with false.
    now rewrite andb_false_r.
  - cbn [all_chars] in Hds. apply andb_prop in Hds as [_ Hds].
    apply andb_prop in Hds as [H2 _].
    destruct (xdigit_not_x c2 H2) as [Hx HX].
    cbn [append]. unfold strip_0x.
    destruct (ds ++ rest); [reflexivity|].
    now rewrite Hx, HX, andb_false_r.
Qed.

Lemma scan_x_of (s s1 : string) (neg : bool) :
  strip_sign (skip_space s) = (neg, s1) ->
  starts_xdigit (strip_0x s1) = true ->
  scan_x s =
  Some (to_uint (if neg then - scan_xdigits 0 (strip_0x s1)
                 else scan_xdigits 0 (strip_0x s1))).
Proof.
  unfold scan_x. intros -> H. now rewrite H.
Qed.

Lemma to_uint_idem (n : Z) : to_uint (to_uint n) = to_uint n.
Proof. unfold to_uint. apply Z.mod_mod. lia. Qed.

(** Printing an offset with [%x] and reading it back with [%x] gives the
    offset (as a [uint]), with or without a [0x] or [+0x] in front, at
    the end of an argument or of a line. *)
Lemma scan_x_fmt_x (n : Z) (rest : string) :
  ends_number rest ->
  scan_x (fmt_x n ++ rest) = Some (to_uint n) /\
  scan_x ("0x" ++ fmt_x n ++ rest) = Some (to_uint n) /\
  scan_x ("+0x" ++ fmt_x n ++ rest) = Some (to_uint n).
Proof.
  intros Hrest.
  destruct (fmt_x_digits n) as (c & r & Hcr & Hds & Hval).
  assert (Hc : isxdigit c = true).
  { rewrite Hcr in Hds. cbn [all_chars] in Hds.
    now apply andb_prop in Hds as [Hc _]. }
  assert (Hstrip : strip_0x (fmt_x n ++ rest) = fmt_x n ++ rest)
    by now apply strip_0x_digits.
  assert (Hstart : starts_xdigit (fmt_x n ++ rest) = true)
    by now rewrite Hcr.
  assert (Hv : scan_xdigits 0 (fmt_x n ++ rest) = to_uint n).
  { rewrite Hval. apply scan_xdigits_stop. now apply ends_number_stop. }
  assert (H0x : strip_0x ("0x" ++ fmt_x n ++ rest) = fmt_x n ++ rest).
  { rewrite Hcr. cbn [append]. unfold strip_0x. rewrite Hc. reflexivity. }
  split; [|split].
  - rewrite (scan_x_of _ (fmt_x n ++ rest) false).
    + now rewrite Hstrip, Hv, to_uint_idem.
    + rewrite Hcr. cbn [append skip_space].
      rewrite (xdigit_not_space c Hc). unfold strip_sign.
      destruct (xdigit_not_sign c Hc) as [-> ->]. reflexivity.
    + now rewrite Hstrip.
  - rewrite (scan_x_of _ ("0x" ++ fmt_x n ++ rest) false).
    + now rewrite H0x, Hv, to_uint_idem.
    + reflexivity.
    + now rewrite H0x.
  - rewrite (scan_x_of _ ("0x" ++ fmt_x n ++ rest) false).
    + now rewrite H0x, Hv, to_uint_idem.
    + reflexivity.
    + now rewrite H0x.
Qed.

(** ** Further properties of the program *)

Section Further.

Variable B : build.
Variable E : environment.

(** *** What the single-module handlers never do *)

Create HintDb quiet.

Lemma state_bind {A C : Type} (m : M E A) (f : A -> M E C) (s : state E) :
  state_of (bind E m f s) = state_of (f (value_of (m s)) (state_of (m s))).
Proof.
  unfold bind, events_of, value_of, state_of.
  destruct (m s) as [[a t1] s1]. simpl.
  now destruct (f a s1) as [[c t2] s2].
Qed.

Lemma quiet_ret {A : Type} (a : A) : quiet E (ret E a).
Proof. intros s. repeat split. Qed.

Lemma quiet_printf (str : string) : quiet E (printf E str).
Proof. intros s. repeat split. Qed.

Lemma quiet_call {A : Type} (c : libcall)
  (f : lib_state E -> A * lib_state E) : quiet E (call E c f).
Proof.
  intros s. unfold call. destruct (f (lib E s)) as [a l]. repeat split.
Qed.

Lemma quiet_bind {A C : Type} (m : M E A) (f : A -> M E C) :
  quiet E m -> (forall a, quiet E (f a)) -> quiet E (bind E m f).
Proof.
  intros Hm Hf s.
  destruct (Hm s) as (Hm1 & Hm2 & Hm3).
  destruct (Hf (value_of (m s)) (state_of (m s))) as (Hf1 & Hf2 & Hf3).
  rewrite events_bind, state_bind, forallb_app, Hm1, Hf1.
  repeat split; congruence.
Qed.

Lemma quiet_when (b : bool) (m : M E unit) :
  quiet E m -> quiet E (when E b m).
Proof. intros Hm. destruct b; [exact Hm | apply quiet_ret]. Qed.

Lemma quiet_iterate {A : Type} (cb : A -> M E bool) (items : list A) :
  (forall x, quiet E (cb x)) -> quiet E (iterate E cb items).
Proof.
  intros Hcb. induction items as [|x items IH]; [apply quiet_ret|].
  cbn [iterate]. apply quiet_bind; [apply Hcb|].
  intros [|]; [exact IH | apply quiet_ret].
Qed.

#[local] Hint Resolve quiet_ret quiet_printf quiet_call quiet_when quiet_bind
  : quiet.

Lemma quiet_get_and_print_debug_kind (dllpath : string) :
  quiet E (get_and_print_debug_kind B E dllpath).
Proof.
  unfold get_and_print_debug_kind, drsym_get_module_debug_kind,
    print_debug_kind.
  auto 12 with quiet.
Qed.

Lemma quiet_lookup_address (o : options) (dllpath : string) (modoffs : Z) :
  quiet E (lookup_address B E o dllpath modoffs).
Proof.
  unfold lookup_address, drsym_lookup_address, print_debug_kind.
  apply quiet_bind; [apply quiet_call|]. intros r.
  destruct ((fst r =? DRSYM_SUCCESS B)
            || (fst r =? DRSYM_ERROR_LINE_NOT_AVAILABLE B)).
  - destruct (fst r =? DRSYM_ERROR_LINE_NOT_AVAILABLE B); auto 12 with quiet.
  - destruct (verbose o); auto 12 with quiet.
Qed.

Lemma quiet_lookup_symbol (o : options) (dllpath sym : string) :
  quiet E (lookup_symbol B E o dllpath sym).
Proof.
  unfold lookup_symbol, drsym_lookup_symbol.
  apply quiet_bind;
    [apply quiet_when, quiet_get_and_print_debug_kind|]. intros _.
  apply quiet_bind; [apply quiet_call|]. intros r.
  destruct ((fst r =? DRSYM_SUCCESS B)
            || (fst r =? DRSYM_ERROR_LINE_NOT_AVAILABLE B)); [auto 12 with quiet|].
  destruct (verbose o); auto 12 with quiet.
Qed.

Lemma quiet_search_cb (info : drsym_info_t) (status : Z)
  (data : option string) : quiet E (search_cb E info status data).
Proof. unfold search_cb. auto 12 with quiet. Qed.

Lemma quiet_enumerate_symbols (o : options) (dllpath : string)
  (pat : option string) (search searchall : bool) :
  quiet E (enumerate_symbols B E o dllpath pat search searchall).
Proof.
  unfold enumerate_symbols.
  apply quiet_bind;
    [apply quiet_when, quiet_get_and_print_debug_kind|]. intros _.
  apply quiet_bind; [|intros; auto 12 with quiet].
  destruct (WINDOWS B && search).
  - unfold drsym_search_symbols_ex.
    apply quiet_bind; [apply quiet_call|]. intros r.
    apply quiet_bind; [|intros; apply quiet_ret].
    apply quiet_iterate. intros p. apply quiet_search_cb.
  - unfold drsym_enumerate_symbols_ex.
    apply quiet_bind; [apply quiet_call|]. intros r.
    apply quiet_bind; [|intros; apply quiet_ret].
    apply quiet_iterate. intros p. apply quiet_search_cb.
Qed.

Lemma quiet_enumerate_lines (o : options) (dllpath : string) :
  quiet E (enumerate_lines B E o dllpath).
Proof.
  unfold enumerate_lines, drsym_enumerate_lines.
  apply quiet_bind;
    [apply quiet_when, quiet_get_and_print_debug_kind|]. intros _.
  apply quiet_bind; [|intros; auto 12 with quiet].
  apply quiet_bind; [apply quiet_call|]. intros r.
  apply quiet_bind; [|intros; apply quiet_ret].
  apply quiet_iterate. intros info. unfold enum_line_cb. auto 12 with quiet.
Qed.

Lemma quiet_query (o : options) (dllpath arg : string) :
  quiet E (query B E o dllpath arg).
Proof.
  unfold query. destruct (addr2sym o).
  - destruct (scan_x arg);
      [apply quiet_lookup_address | apply quiet_printf].
  - destruct (enumerate o || search o);
      [apply quiet_enumerate_symbols | apply quiet_lookup_symbol].
Qed.

Lemma quiet_query_loop (o : options) (dllpath : string)
  (args : list string) : quiet E (query_loop B E o dllpath args).
Proof.
  induction args as [|a rest IH]; [apply quiet_ret|].
  cbn [query_loop]. apply quiet_bind; [apply quiet_query|].
  intros _. exact IH.
Qed.

Lemma parse_args_exit_prints (mypath : string) (args : list string)
  (o : options) (out : list event) (status : Z) :
  parse_args B E mypath args o = Exit out status ->
  forallb quiet_event out = true.
Proof.
  remember (List.length args) as n eqn:Hn.
  assert (Hle : (List.length args <= n)%nat) by lia. clear Hn.
  revert args o Hle. induction n as [|n IH]; intros args o Hle.
  - destruct args; [discriminate|simpl in Hle; lia].
  - destruct args as [|a rest]; [discriminate|].
    cbn [parse_args]. simpl in Hle.
    assert (Husage : Exit (PRINT_USAGE B mypath) 1 = Exit out status ->
                     forallb quiet_event out = true).
    { intros H. injection H as <- <-. reflexivity. }
    destruct (_stricmp a "-e" =? 0).
    { destruct rest as [|p rest']; [exact Husage|].
      destruct (resolve_module B E p).
      - apply IH. simpl in Hle. lia.
      - intros H. injection H as <- <-. reflexivity. }
    destruct (_stricmp a "-f" =? 0); [apply IH; lia|].
    destruct (_stricmp a "-v" =? 0); [apply IH; lia|].
    destruct ((_stricmp a "-a" =? 0) || (_stricmp a "-s" =? 0)).
    { destruct rest as [|x rest']; [exact Husage|].
      destruct (_stricmp a "-a" =? 0); discriminate. }
    destruct (_stricmp a "--lines" =? 0); [apply IH; lia|].
    destruct (_stricmp a "-q" =? 0); [apply IH; lia|].
    destruct (_stricmp a "--enum" =? 0); [apply IH; lia|].
    destruct (_stricmp a "--list" =? 0); [apply IH; lia|].
    destruct (_stricmp a "--search" =? 0); [apply IH; lia|].
    destruct (_stricmp a "--searchall" =? 0); [apply IH; lia|].
    exact Husage.
Qed.

(** X1. Outside batch mode the program never reads standard input and
    never flushes: whatever the arguments, the input and the answers of
    the library, every event of the run is a [printf] or a library call.
    This holds for the runs the argument loop refuses as well. *)
Theorem single_module_run_is_quiet (argv : list string) (input : string)
  (l : lib_state E) :
  (forall o rest,
     parse_args B E (hd EmptyString argv) (tl argv) initial_options
     = Parsed o rest -> addr2sym_multi o = false) ->
  forallb quiet_event (trace B E argv input l) = true.
Proof.
  intros Hsingle. unfold trace, run. rewrite main_run.
  destruct (parse_args B E (hd EmptyString argv) (tl argv) initial_options)
    as [out status|o rest] eqn:Hparse.
  - now apply parse_args_exit_prints in Hparse.
  - specialize (Hsingle o rest eq_refl).
    destruct (invalid_options o); [reflexivity|].
    cbn [lib stdin_buf stdin_eof].
    destruct (lib_init E l) as [r l1].
    destruct (negb (r =? DRSYM_SUCCESS B)); [reflexivity|].
    match goal with
    | |- context [dispatch B E o rest ?s1] =>
        assert (Hq : forallb quiet_event
                       (events_of (dispatch B E o rest s1)) = true);
        [|destruct (dispatch B E o rest s1) as [[u t] s2]]
    end.
    { unfold dispatch. rewrite Hsingle. cbn [negb].
      destruct (enum_lines o); [apply quiet_enumerate_lines|].
      destruct (enumerate_all o);
        [apply quiet_enumerate_symbols | apply quiet_query_loop]. }
    destruct (lib_exit E (lib E s2)) as [r' l3].
    cbn [events_of fst snd] in Hq |- *.
    cbn [app forallb quiet_event andb].
    rewrite forallb_app, Hq.
    now destruct (negb (r' =? DRSYM_SUCCESS B)).
Qed.

(** X2. A failed initialisation of the library is fatal: with valid
    arguments and an initialisation status other than success the
    program prints one error line and exits with status 1; no lookup or
    enumeration is made, standard input is not read, and the library is
    not torn down. *)
Theorem init_failure_is_fatal (argv : list string) (input : string)
  (l : lib_state E) (o : options) (rest : list string) :
  parse_args B E (hd EmptyString argv) (tl argv) initial_options
  = Parsed o rest ->
  invalid_options o = false ->
  fst (lib_init E l) <> DRSYM_SUCCESS B ->
  run B E argv input l =
  (1, [Call Cstandalone_init; Call Cinit;
       Printf ("ERROR: unable to initialize symbol library" ++ nl)]).
Proof.
  intros Hparse Hvalid Hinit. unfold run.
  rewrite main_run, Hparse, Hvalid. cbn [lib stdin_buf stdin_eof].
  destruct (lib_init E l) as [r l1]. cbn [fst] in Hinit.
  apply Z.eqb_neq in Hinit. now rewrite Hinit.
Qed.

(** X3. The exit status is 0 or 1, and it is 0 exactly when the argument
    loop ran to its end or to its [break], the check after it passed,
    and the library was initialised. *)
Theorem exit_status_cases (argv : list string) (input : string)
  (l : lib_state E) :
  (exit_status B E argv input l = 0 \/ exit_status B E argv input l = 1) /\
  (exit_status B E argv input l = 0 <->
   exists o rest,
     parse_args B E (hd EmptyString argv) (tl argv) initial_options
     = Parsed o rest /\
     invalid_options o = false /\
     fst (lib_init E l) = DRSYM_SUCCESS B).
Proof.
  unfold exit_status, run. rewrite main_run.
  destruct (parse_args B E (hd EmptyString argv) (tl argv) initial_options)
    as [out status|o rest] eqn:Hparse.
  - apply parse_args_exit in Hparse. destruct Hparse as [-> _].
    cbn [fst]. split; [now right|].
    split; [discriminate|]. intros (o & rest & H & _). discriminate.
  - destruct (invalid_options o) eqn:Hvalid.
    + cbn [fst]. split; [now right|].
      split; [discriminate|].
      intros (o' & rest' & H & Hv & _). injection H as <- <-. congruence.
    + cbn [lib stdin_buf stdin_eof].
      destruct (lib_init E l) as [r l1]. cbn [fst].
      destruct (r =? DRSYM_SUCCESS B) eqn:Hr; cbn [negb].
      * destruct (dispatch B E o rest _) as [[u t] s2].
        destruct (lib_exit E (lib E s2)) as [r' l3]. cbn [fst].
        split; [now left|]. split; [|reflexivity].
        intros _. exists o, rest. apply Z.eqb_eq in Hr. auto.
      * cbn [fst]. split; [now right|].
        split; [discriminate|].
        intros (o' & rest' & _ & _ & H). apply Z.eqb_neq in Hr. congruence.
Qed.

(** *** Line enumeration *)

Lemma iterate_enum_line_cb (data : string) (items : list drsym_line_info_t)
  (s : state E) :
  iterate E (fun info => enum_line_cb B E info data) items s =
  (tt, map Printf (map (line_record B) items), s).
Proof.
  induction items as [|x items IH]; [reflexivity|].
  cbn [iterate map]. unfold bind at 1. unfold enum_line_cb at 1.
  unfold bind at 1. unfold printf, emit, ret. rewrite IH. reflexivity.
Qed.

(** X4. Line enumeration prints one line for each record the library
    hands over, in the order of the library and none left out, a missing
    compilation unit or file shown as [<null>].  A status other than
    success is reported, after the records, only in verbose mode; when
    not verbose nothing but the records is printed. *)
Theorem enumerate_lines_report (o : options) (dllpath : string) (s : state E) :
  let pre := when E (verbose o) (get_and_print_debug_kind B E dllpath) s in
  let r := fst (lib_enumerate_lines E dllpath (lib E (state_of pre))) in
  printed (events_of (enumerate_lines B E o dllpath s)) =
  (printed (events_of pre) ++ map (line_record B) (fst r) ++
   (if negb (snd r =? DRSYM_SUCCESS B) && verbose o
    then [("line enum error " ++ fmt_d (snd r) ++ nl)%string] else []))%list
  /\
  (verbose o = false ->
   printed (events_of (enumerate_lines B E o dllpath s)) =
   map (line_record B) (fst (fst (lib_enumerate_lines E dllpath (lib E s)))))
  /\
  (forall info,
     cu_name info = None -> li_file info = None ->
     line_record B info =
     "cu=" ++ dq ++ "<null>" ++ dq ++ ", file=" ++ dq ++ "<null>" ++ dq ++
     " line=" ++ fmt_lld (li_line info) ++ ", addr=" ++
     PIFX B (line_addr info) ++ nl).
Proof.
  intros pre r.
  assert (Hout :
    printed (events_of (enumerate_lines B E o dllpath s)) =
    (printed (events_of pre) ++ map (line_record B) (fst r) ++
     (if negb (snd r =? DRSYM_SUCCESS B) && verbose o
      then [("line enum error " ++ fmt_d (snd r) ++ nl)%string]
      else []))%list).
  { unfold enumerate_lines.
    rewrite events_bind, printed_app. fold pre. f_equal.
    unfold drsym_enumerate_lines, call, bind.
    subst r.
    destruct (lib_enumerate_lines E dllpath (lib E (state_of pre)))
      as [[items status] l'].
    cbn [fst snd]. rewrite iterate_enum_line_cb.
    unfold when, printf, emit, ret.
    destruct (negb (status =? DRSYM_SUCCESS B) && verbose o);
      cbn [events_of fst snd app printed];
      rewrite ?app_nil_r, ?printed_app, printed_map_Printf; reflexivity. }
  split; [exact Hout|]. split.
  - intros Hv. rewrite Hout. subst r pre. rewrite Hv.
    cbn [when ret events_of state_of fst snd printed app].
    now rewrite andb_false_r, app_nil_r.
  - intros info Hcu Hfile. unfold line_record. now rewrite Hcu, Hfile.
Qed.

(** *** Wildcard search *)

Lemma iterate_search_cb_all (items : list (drsym_info_t * Z)) (s : state E) :
  iterate E (fun p => search_cb E (fst p) (snd p) None) items s =
  (tt, map Printf (map symbol_line (map fst items)), s).
Proof.
  induction items as [|x items IH]; [reflexivity|].
  cbn [iterate map]. unfold bind at 1. unfold search_cb at 1.
  unfold bind at 1. unfold when, printf, emit, ret. rewrite IH. reflexivity.
Qed.

(** X5. On Windows a wildcard search leaves the matching to the library:
    the pattern goes to the library, the callback is given no name to
    compare with, and, when not verbose, the line of every symbol the
    library hands over is printed, whatever its name, and nothing else. *)
Theorem windows_search_prints_all (o : options) (dllpath : string)
  (pat : option string) (searchall : bool) (s : state E) :
  WINDOWS B = true ->
  verbose o = false ->
  let r := fst (lib_search_symbols E dllpath pat searchall (lib E s)) in
  events_of (enumerate_symbols B E o dllpath pat true searchall s) =
  Call (Csearch_symbols dllpath pat searchall) ::
  map Printf (map symbol_line (map fst (fst r))).
Proof.
  intros Hw Hv r. unfold enumerate_symbols. rewrite Hw, Hv.
  cbn [andb when]. unfold drsym_search_symbols_ex, call, bind, ret.
  subst r.
  destruct (lib_search_symbols E dllpath pat searchall (lib E s))
    as [[items status] l'].
  cbn [fst snd]. rewrite iterate_search_cb_all.
  rewrite andb_false_r. cbn [when ret events_of fst snd app].
  now rewrite !app_nil_r.
Qed.


(** *** The argument loop *)

(** X7. Flags are recognised whatever their case: two arguments that
    [_stricmp] finds equal are interchangeable wherever the argument
    loop reads a flag. *)
Theorem flags_ignore_case (mypath a a' : string) (rest : list string)
  (o : options) :
  _stricmp a a' = 0 ->
  parse_args B E mypath (a :: rest) o = parse_args B E mypath (a' :: rest) o.
Proof.
  intros H. apply stricmp_0 in H. cbn [parse_args].
  rewrite !stricmp_eqb, H. reflexivity.
Qed.

Lemma flag_test (a f : string) :
  fold_case f = f -> (_stricmp a f =? 0) = flag_is f a.
Proof. intros Hf. unfold flag_is. now rewrite stricmp_eqb, Hf. Qed.

Lemma parse_args_tests (mypath a : string) (rest : list string) (o : options) :
  parse_args B E mypath (a :: rest) o =
  if flag_is "-e" a then
    match rest with
    | [] => Exit (PRINT_USAGE B mypath) 1
    | p :: rest' =>
        match resolve_module B E p with
        | None => Exit [Printf ("ERROR: invalid path " ++ p ++ nl)] 1
        | Some d => parse_args B E mypath rest' (set_dll d o)
        end
    end
  else if flag_is "-f" a then parse_args B E mypath rest (set_show_func o)
  else if flag_is "-v" a then parse_args B E mypath rest (set_verbose o)
  else if flag_is "-a" a || flag_is "-s" a then
    match rest with
    | [] => Exit (PRINT_USAGE B mypath) 1
    | _ :: _ =>
        if flag_is "-a" a then Parsed (set_addr2sym o) rest
        else Parsed (set_sym2addr o) rest
    end
  else if flag_is "--lines" a then
    parse_args B E mypath rest (set_enum_lines o)
  else if flag_is "-q" a then
    parse_args B E mypath rest (set_addr2sym_multi o)
  else if flag_is "--enum" a then
    parse_args B E mypath rest (set_enumerate o)
  else if flag_is "--list" a then
    parse_args B E mypath rest (set_enumerate_all o)
  else if flag_is "--search" a then
    parse_args B E mypath rest (set_search o)
  else if flag_is "--searchall" a then
    parse_args B E mypath rest (set_searchall o)
  else Exit (PRINT_USAGE B mypath) 1.
Proof.
  cbn [parse_args]. rewrite !flag_test by reflexivity. reflexivity.
Qed.

(** X8. An argument the loop reads as a flag and that is none of the
    eleven flags, whatever the case, ends the run: the usage text is
    printed, the exit status is 1, and the arguments after it are not
    looked at. *)
Theorem unknown_flag_rejected (mypath : string) (pre : list string)
  (o : options) (a : string) (rest : list string) (input : string)
  (l : lib_state E) :
  parse_args B E mypath pre initial_options = Parsed o [] ->
  known_flag a = false ->
  run B E (mypath :: pre ++ a :: rest) input l = (1, PRINT_USAGE B mypath).
Proof.
  intros Hpre Hk. apply run_exit. cbn [hd tl].
  rewrite (parse_args_app _ _ _ _ _ _ _ Hpre), parse_args_tests.
  unfold known_flag, known_flags, simple_flags in Hk. cbn [existsb] in Hk.
  repeat (apply orb_false_elim in Hk as [? Hk]).
  repeat match goal with
         | H : flag_is _ a = false |- _ => rewrite H; clear H
         end.
  reflexivity.
Qed.

Lemma flag_is_other (f g a : string) :
  flag_is f a = true -> flag_is g a = String.eqb f g.
Proof.
  unfold flag_is. intros H. apply String.eqb_eq in H. now rewrite H.
Qed.

Lemma options_eq (o o' : options) :
  dll o = dll o' -> show_func o = show_func o' -> verbose o = verbose o' ->
  addr2sym o = addr2sym o' -> addr2sym_multi o = addr2sym_multi o' ->
  sym2addr o = sym2addr o' -> enumerate o = enumerate o' ->
  enumerate_all o = enumerate_all o' -> search o = search o' ->
  searchall o = searchall o' -> enum_lines o = enum_lines o' ->
  o = o'.
Proof.
  destruct o, o'. cbn. intros. subst. reflexivity.
Qed.

Lemma with_flags_cons (a : string) (rest : list string) (o : options) :
  with_flags (a :: rest) o = with_flags rest (with_flags [a] o).
Proof.
  apply options_eq; unfold with_flags, has_flag;
    cbn [existsb dll show_func verbose addr2sym addr2sym_multi sym2addr
         enumerate enumerate_all search searchall enum_lines];
    try reflexivity; btauto.
Qed.

Lemma parse_args_simple_flag (mypath a : string) (rest : list string)
  (o : options) :
  simple_flag a = true ->
  parse_args B E mypath (a :: rest) o =
  parse_args B E mypath rest (with_flags [a] o).
Proof.
  intros Hs. rewrite parse_args_tests.
  unfold simple_flag, simple_flags in Hs. cbn [existsb] in Hs.
  rewrite orb_false_r in Hs.
  repeat (apply orb_prop in Hs as [Hs | Hs]);
    pose proof (fun g => flag_is_other _ g a Hs) as Hother;
    rewrite !Hother; cbn [String.eqb Ascii.eqb Bool.eqb andb orb];
    f_equal; apply options_eq;
    unfold with_flags, has_flag;
    cbn [existsb dll show_func verbose addr2sym addr2sym_multi sym2addr
         enumerate enumerate_all search searchall enum_lines
         set_show_func set_verbose set_enum_lines set_addr2sym_multi
         set_enumerate set_enumerate_all set_search set_searchall];
    rewrite ?Hother;
    cbn [String.eqb Ascii.eqb Bool.eqb andb orb];
    rewrite ?orb_false_r, ?orb_true_r; reflexivity.
Qed.

Lemma has_flag_perm (f : string) (args args' : list string) :
  Permutation args args' -> has_flag f args = has_flag f args'.
Proof.
  unfold has_flag. induction 1 as [|x l l' _ IH|x y l|l l' l'' _ IH1 _ IH2];
    cbn [existsb].
  - reflexivity.
  - now rewrite IH.
  - btauto.
  - congruence.
Qed.

(** X9. Flags that take no value accumulate.  A run of such flags is
    consumed whole and sets exactly the options whose flag occurs in it
    ([--searchall] setting wildcard search as well); so the order of the
    flags and their repetition do not matter. *)
Theorem simple_flags_accumulate (mypath : string) (args args' : list string)
  (o : options) :
  Forall (fun a => simple_flag a = true) args ->
  Permutation args args' ->
  parse_args B E mypath args o = Parsed (with_flags args o) [] /\
  parse_args B E mypath args' o = parse_args B E mypath args o.
Proof.
  assert (Hacc : forall l o0,
    Forall (fun a => simple_flag a = true) l ->
    parse_args B E mypath l o0 = Parsed (with_flags l o0) []).
  { induction l as [|a l IH]; intros o0 Hl.
    - cbn [parse_args]. f_equal. apply options_eq;
        unfold with_flags, has_flag; cbn; now rewrite ?orb_false_r.
    - inversion Hl as [|? ? Ha Hl']; subst.
      rewrite (parse_args_simple_flag _ _ _ _ Ha), (IH _ Hl').
      now rewrite <- with_flags_cons. }
  intros Hargs Hperm.
  assert (Hargs' : Forall (fun a => simple_flag a = true) args')
    by (eapply Permutation_Forall; eauto).
  split; [now apply Hacc|].
  rewrite (Hacc _ _ Hargs), (Hacc _ _ Hargs'). f_equal.
  apply options_eq; unfold with_flags;
    cbn [dll show_func verbose addr2sym addr2sym_multi sym2addr
         enumerate enumerate_all search searchall enum_lines];
    rewrite ?(has_flag_perm _ _ _ Hperm); reflexivity.
Qed.

(** *** The query loop in address mode *)

Lemma query_loop_lookups (o : options) (dllpath : string)
  (queries : list string) (s : state E) :
  addr2sym o = true ->
  lookups (events_of (query_loop B E o dllpath queries s)) =
  map (pair dllpath) (scanned queries).
Proof.
  intros Ha. revert s.
  induction queries as [|q qs IH]; intros s; [reflexivity|].
  cbn [query_loop scanned]. rewrite events_bind, lookups_app, IH.
  unfold query. rewrite Ha.
  destruct (scan_x q) as [a|]; [|reflexivity].
  destruct (lookup_address_run B E o dllpath a s) as (t & -> & Ht).
  cbn [events_of fst snd lookups map app].
  now rewrite (lookups_printf t Ht).
Qed.

(** X10. In address mode an argument of the query loop costs at most one
    library call.  An argument in which [%x] finds a number is one
    address lookup, on the module given with [-e]; an argument in which
    it finds none is no call at all: one line
    [ERROR: unknown input <arg>] is printed for it and the loop goes on.
    So the lookups of the loop are as many as the arguments with a
    number, all on that module. *)
Theorem address_queries_lookups (o : options) (dllpath : string)
  (queries : list string) (s : state E) :
  addr2sym o = true ->
  map fst (lookups (events_of (query_loop B E o dllpath queries s))) =
  map (fun _ => dllpath) (filter scans queries) /\
  (forall q (s' : state E),
     scans q = false ->
     query B E o dllpath q s' =
     (tt, [Printf ("ERROR: unknown input " ++ q ++ nl)], s')).
Proof.
  intros Ha. split.
  - rewrite (query_loop_lookups o dllpath queries s Ha).
    induction queries as [|q qs IH]; [reflexivity|].
    cbn [scanned filter]. unfold scans at 1.
    destruct (scan_x q); cbn [map fst]; now rewrite IH.
  - intros q s' Hq. unfold query. rewrite Ha.
    unfold scans in Hq. now destruct (scan_x q).
Qed.

(** *** The batch loop and its input *)

Lemma append_empty_r (a : string) : a ++ "" = a.
Proof. induction a as [|c a IH]; simpl; congruence. Qed.

Lemma fgets_take_split (k : nat) (s l r : string) (e : bool) :
  fgets_take k s = (l, r, e) -> l ++ r = s.
Proof.
  revert s l r e. induction k as [|k IH]; intros s l r e.
  - cbn. intros H. now injection H as <- <- _.
  - cbn [fgets_take]. destruct s as [|c s].
    + intros H. now injection H as <- <- _.
    + destruct (code c =? 10).
      * intros H. now injection H as <- <- _.
      * destruct (fgets_take k s) as [[l' r'] e'] eqn:Hk.
        intros H. injection H as <- <- _.
        cbn [append]. f_equal. now apply (IH _ _ _ _ Hk).
Qed.

Lemma reads_app (t u : list event) : reads (t ++ u) = (reads t ++ reads u)%list.
Proof.
  induction t as [|e t IH]; [reflexivity|].
  destruct e as [| |[raw|]|]; cbn [app reads]; now rewrite IH.
Qed.

Lemma batch_line_reads (o : options) (ln : string) (s : state E) :
  reads (events_of (batch_line B E o ln s)) = [].
Proof.
  pose proof (batch_line_run B E o ln s) as H.
  destruct (sscanf_path_x (MAXIMUM_PATH B) ln) as [[p a]|].
  - destruct H as (t & -> & Ht). cbn [events_of fst snd reads].
    rewrite reads_app. cbn [reads]. rewrite app_nil_r.
    clear -Ht. induction t as [|e t IH]; [reflexivity|].
    destruct e; try discriminate. exact (IH Ht).
  - rewrite H. now destruct (verbose o).
Qed.

(** X11. The batch loop loses no input: at any point, the buffers
    [fgets] has filled so far, put end to end, followed by what is left
    of standard input, are the standard input the loop started with. *)
Theorem batch_loop_consumes_prefix (o : options) (n : nat) (s : state E) :
  read_text (events_of (batch_loop B E n o s)) ++
  stdin_buf E (state_of (batch_loop B E n o s))
  = stdin_buf E s.
Proof.
  revert s. induction n as [|n IH]; intros s; [reflexivity|].
  rewrite batch_loop_S.
  destruct (stdin_eof E s); [reflexivity|].
  destruct (stdin_buf E s) as [|c b] eqn:Hbuf; [reflexivity|].
  destruct (fgets_take (MAXIMUM_PATH B * 2 - 1) (String c b))
    as [[l r] e] eqn:Htake.
  apply fgets_take_split in Htake. cbv zeta.
  destruct (strcmp (c_str l) sentinel =? 0).
  - cbn [events_of state_of fst snd stdin_buf].
    unfold read_text. cbn [reads fold_right].
    now rewrite append_empty_r.
  - match goal with
    | |- context [batch_line B E o (c_str l) ?s'] =>
        pose proof (batch_line_stdin B E o (c_str l) s') as [Hb _];
        pose proof (batch_line_reads o (c_str l) s') as Hr;
        destruct (batch_line B E o (c_str l) s') as [[u t1] s1]
    end.
    specialize (IH s1).
    destruct (batch_loop B E n o s1) as [[v t2] s2].
    cbn [events_of state_of fst snd stdin_buf] in *.
    unfold read_text in *. cbn [reads]. rewrite reads_app, Hr.
    cbn [app fold_right]. rewrite append_assoc, IH, Hb. exact Htake.
Qed.

Lemma batch_loop_at_eof (o : options) (n : nat) (s : state E) :
  stdin_eof E s = true -> batch_loop B E n o s = (tt, [], s).
Proof.
  intros H. destruct n as [|n]; [reflexivity|].
  now rewrite batch_loop_S, H.
Qed.

(** X12. The batch loop reads whole lines.  When standard input is a
    sequence of lines (each newline-terminated, within the buffer size,
    without NUL, none of them the sentinel) followed by the sentinel,
    the loop reads exactly these lines and the sentinel, in order, and
    leaves everything after the sentinel unread; when the sequence is
    all of standard input, it reads exactly these lines and stops at
    the end of the input. *)
Theorem batch_reads_lines (o : options) (ls : list string) :
  (4 <= MAXIMUM_PATH B)%nat ->
  Forall (fun ln => is_line (MAXIMUM_PATH B * 2 - 1) ln /\ is_c_string ln /\
                    ln <> sentinel) ls ->
  forall (n : nat) (s : state E),
    (List.length ls < n)%nat ->
    stdin_eof E s = false ->
    (forall rest,
       stdin_buf E s = fold_right append EmptyString ls ++ sentinel ++ rest ->
       reads (events_of (batch_loop B E n o s)) = (ls ++ [sentinel])%list /\
       stdin_buf E (state_of (batch_loop B E n o s)) = rest) /\
    (stdin_buf E s = fold_right append EmptyString ls ->
     reads (events_of (batch_loop B E n o s)) = ls /\
     stdin_buf E (state_of (batch_loop B E n o s)) = EmptyString /\
     stdin_eof E (state_of (batch_loop B E n o s)) = true).
Proof.
  intros Hmp Hls. induction Hls as [|ln ls (Hline & Hc & Hne) _ IH];
    intros n s Hn Heof.
  - destruct n as [|n]; [simpl in Hn; lia|]. split.
    + intros rest Hbuf. cbn [fold_right append] in Hbuf.
      rewrite (batch_loop_line B E n o s sentinel rest Heof Hbuf).
      * split; reflexivity.
      * apply sentinel_is_line. lia.
      * exact sentinel_c_string.
    + intros Hbuf. cbn [fold_right] in Hbuf.
      rewrite batch_loop_S, Heof, Hbuf. repeat split.
  - destruct n as [|n]; [simpl in Hn; lia|]. simpl in Hn.
    assert (Hstep : forall tail,
      stdin_buf E s = ln ++ tail ->
      exists t1 s1,
        stdin_buf E s1 = tail /\ stdin_eof E s1 = false /\
        reads (events_of (batch_loop B E (S n) o s)) =
        ln :: reads (events_of (batch_loop B E n o s1)) /\
        state_of (batch_loop B E (S n) o s) =
        state_of (batch_loop B E n o s1) /\
        reads t1 = []).
    { intros tail Hbuf.
      rewrite (batch_loop_line B E n o s ln tail Heof Hbuf Hline Hc).
      apply String.eqb_neq in Hne. rewrite Hne.
      pose proof (batch_line_stdin B E o ln (after_read E s tail)) as [Hb He].
      pose proof (batch_line_reads o ln (after_read E s tail)) as Hr.
      destruct (batch_line B E o ln (after_read E s tail)) as [[u t1] s1].
      cbn [state_of events_of fst snd after_read stdin_buf stdin_eof] in *.
      exists t1, s1.
      destruct (batch_loop B E n o s1) as [[v t2] s2].
      cbn [state_of events_of fst snd reads].
      rewrite reads_app, Hr. repeat split; auto. congruence. }
    split.
    + intros rest Hbuf. cbn [fold_right] in Hbuf.
      rewrite append_assoc in Hbuf.
      destruct (Hstep _ Hbuf) as (t1 & s1 & Hb1 & He1 & Hreads & Hstate & _).
      destruct (IH n s1 ltac:(lia) He1) as [Hsent _].
      destruct (Hsent rest Hb1) as [Hr Hs].
      rewrite Hreads, Hstate, Hr, Hs. split; reflexivity.
    + intros Hbuf. cbn [fold_right] in Hbuf.
      destruct (Hstep _ Hbuf) as (t1 & s1 & Hb1 & He1 & Hreads & Hstate & _).
      destruct (IH n s1 ltac:(lia) He1) as [_ Hend].
      destruct (Hend Hb1) as (Hr & Hs & He).
      rewrite Hreads, Hstate, Hr, Hs, He. repeat split.
Qed.

Lemma fgets_take_short (k : nat) (body : string) :
  all_chars not_newline body = true ->
  (String.length body < k)%nat ->
  fgets_take k body = (body, EmptyString, true).
Proof.
  revert k. induction body as [|c b IH]; intros k Hb Hk.
  - destruct k; [lia|reflexivity].
  - cbn [all_chars] in Hb. apply andb_prop in Hb as [Hc Hb].
    cbn [String.length] in Hk. destruct k as [|k]; [lia|].
    cbn [fgets_take]. unfold not_newline in Hc.
    apply negb_true_iff in Hc. rewrite Hc.
    rewrite IH by (auto; lia). reflexivity.
Qed.

Lemma c_str_not_newline (body : string) :
  all_chars not_newline body = true ->
  all_chars not_newline (c_str body) = true.
Proof.
  induction body as [|c b IH]; [reflexivity|].
  cbn [all_chars c_str]. intros H. apply andb_prop in H as [Hc Hb].
  destruct (code c =? 0); [reflexivity|].
  cbn [all_chars]. now rewrite Hc, IH.
Qed.

(** X13. A last line without a newline is served like any other.  When
    what is left of standard input is one non-empty text without
    newline, shorter than the buffer, the loop reads it, handles it as a
    line, and stops without reading again, the end of the input having
    been met while reading. *)
Theorem unterminated_last_line (o : options) (n : nat) (s : state E)
  (body : string) :
  stdin_eof E s = false ->
  stdin_buf E s = body ->
  body <> EmptyString ->
  all_chars not_newline body = true ->
  (String.length body < MAXIMUM_PATH B * 2 - 1)%nat ->
  events_of (batch_loop B E (S n) o s) =
  Fgets (Some body) ::
  events_of
    (batch_line B E o (c_str body)
       {| stdin_buf := EmptyString; stdin_eof := true; lib := lib E s |}).
Proof.
  intros Heof Hbuf Hne Hbody Hlen.
  rewrite batch_loop_S, Heof, Hbuf.
  destruct body as [|c b]; [congruence|].
  rewrite (fgets_take_short _ _ Hbody Hlen). cbv zeta.
  assert (Hs : (strcmp (c_str (String c b)) sentinel =? 0) = false).
  { rewrite (strcmp_eqb _ _ (c_str_idem _) sentinel_c_string).
    apply String.eqb_neq. intros H.
    apply c_str_not_newline in Hbody. rewrite H in Hbody. discriminate. }
  rewrite Hs. cbn [orb].
  match goal with
  | |- context [batch_line B E o ?ln ?s'] =>
      pose proof (batch_line_stdin B E o ln s') as [_ He];
      destruct (batch_line B E o ln s') as [[u t1] s1]
  end.
  cbn [state_of snd stdin_eof] in He.
  rewrite (batch_loop_at_eof o n s1 He).
  cbn [events_of fst snd]. now rewrite app_nil_r.
Qed.


Lemma all_chars_app (f : ascii -> bool) (a b : string) :
  all_chars f (a ++ b) = all_chars f a && all_chars f b.
Proof.
  induction a as [|c a IH]; [reflexivity|].
  cbn [append all_chars]. now rewrite IH, andb_assoc.
Qed.

Lemma is_c_string_app (a b : string) :
  is_c_string a -> is_c_string b -> is_c_string (a ++ b).
Proof.
  intros Ha Hb. induction a as [|c a IH]; [exact Hb|].
  apply is_c_string_cons in Ha as [Hc Ha].
  unfold is_c_string in *. cbn [append c_str].
  apply Z.eqb_neq in Hc. rewrite Hc. now rewrite (IH Ha).
Qed.

Lemma xdigits_plain (ds : string) :
  all_chars isxdigit ds = true ->
  is_c_string ds /\ all_chars not_newline ds = true.
Proof.
  induction ds as [|c ds IH]; [split; reflexivity|].
  cbn [all_chars]. intros H. apply andb_prop in H as [Hc Hds].
  destruct (IH Hds) as [IH1 IH2].
  assert (H0 : (code c =? 0) = false /\ (code c =? 10) = false).
  { unfold isxdigit, xdigit_val in Hc. cbv zeta in Hc. split; code_cases. }
  destruct H0 as [H0 H10]. split.
  - unfold is_c_string in *. cbn [c_str]. now rewrite H0, IH1.
  - unfold not_newline at 1. now rewrite H10, IH2.
Qed.

Lemma path_line_not_sentinel (path tail : string) :
  path <> EmptyString -> all_chars not_semicolon path = true ->
  path ++ tail <> sentinel.
Proof.
  destruct path as [|c p]; [congruence|]. intros _ Hp.
  cbn [all_chars] in Hp. apply andb_prop in Hp as [Hc _].
  unfold not_semicolon in Hc. apply negb_true_iff, Z.eqb_neq in Hc.
  intros H. injection H as -> _. now apply Hc.
Qed.


(** *** Offsets printed and read back *)

(** X15. The answer of a symbol lookup is an address the tool accepts.
    When not verbose and the library resolves the symbol with success,
    the output is the one line [+0x<offset>]; in that line [%x] finds
    the number the line shows, the offset as a [uint]; and the line,
    given as a query in address mode, is answered by one address lookup
    on the module, not by an error. *)
Theorem printed_offset_reads_back (o o' : options) (dllpath sym : string)
  (s : state E) (modoffs : Z) :
  verbose o = false ->
  fst (lib_lookup_symbol E dllpath sym (lib E s))
  = (DRSYM_SUCCESS B, modoffs) ->
  addr2sym o' = true ->
  exists ln,
    printed (events_of (lookup_symbol B E o dllpath sym s)) = [ln] /\
    ln = "+0x" ++ fmt_x modoffs ++ nl /\
    scan_x ln = Some (to_uint modoffs) /\
    forall dllpath' (s' : state E),
      map fst (lookups (events_of (query B E o' dllpath' ln s')))
      = [dllpath'].
Proof.
  intros Hv Hlib Ha. exists ("+0x" ++ fmt_x modoffs ++ nl).
  assert (Hscan : scan_x ("+0x" ++ fmt_x modoffs ++ nl)
                  = Some (to_uint modoffs)).
  { destruct (scan_x_fmt_x modoffs nl) as (_ & _ & H); [|exact H].
    right. now exists EmptyString. }
  split; [|split; [reflexivity|split; [exact Hscan|]]].
  - unfold lookup_symbol. rewrite Hv.
    unfold when, drsym_lookup_symbol, call, bind, ret, printf, emit.
    destruct (lib_lookup_symbol E dllpath sym (lib E s)) as [[r i] l'].
    cbn [fst] in Hlib. injection Hlib as -> ->.
    cbn [fst snd]. rewrite Z.eqb_refl. reflexivity.
  - intros dllpath' s'. unfold query. rewrite Ha, Hscan.
    destruct (lookup_address_run B E o' dllpath' (to_uint modoffs) s')
      as (t & -> & Ht).
    cbn [events_of fst snd lookups map]. now rewrite (lookups_printf t Ht).
Qed.

(** X16. A request line written from a module path and an offset is
    served as a request for that path.  Take a path of 1 to
    [MAXIMUM_PATH - 1] characters, without semicolon, newline or NUL,
    and an offset printed by [%x], with or without [0x] in front.  When
    the line [<path>;<offset>] with its newline fits the buffer, what
    [sscanf] stores for it is the path and the offset (as a [uint]),
    and the batch loop reads the line whole, makes one address lookup on
    the path, prints, flushes, and goes on with what follows. *)
Theorem request_round_trip (o : options) (k : nat) (s : state E)
  (path pre : string) (v : Z) (rest : string) :
  path <> EmptyString ->
  (String.length path < MAXIMUM_PATH B)%nat ->
  all_chars not_semicolon path = true ->
  all_chars not_newline path = true ->
  is_c_string path ->
  pre = EmptyString \/ pre = "0x" ->
  (String.length (path ++ ";" ++ pre ++ fmt_x v ++ nl)
   <= MAXIMUM_PATH B * 2 - 1)%nat ->
  stdin_eof E s = false ->
  stdin_buf E s = (path ++ ";" ++ pre ++ fmt_x v ++ nl) ++ rest ->
  sscanf_path_x (MAXIMUM_PATH B) (path ++ ";" ++ pre ++ fmt_x v ++ nl)
  = Some (path, to_uint v) /\
  exists a t s1,
    events_of (batch_loop B E (S k) o s) =
    Fgets (Some (path ++ ";" ++ pre ++ fmt_x v ++ nl)) ::
    Call (Clookup_address path a) ::
    (t ++ Fflush :: events_of (batch_loop B E k o s1))%list /\
    forallb is_printf t = true /\
    stdin_buf E s1 = rest /\ stdin_eof E s1 = false.
Proof.
  intros Hne Hlen Hsemi Hnl Hcs Hpre Hfit Heof Hbuf.
  set (ln := path ++ ";" ++ pre ++ fmt_x v ++ nl) in *.
  assert (Hend : ends_number nl) by (right; now exists EmptyString).
  destruct (fmt_x_digits v) as (c0 & r0 & _ & Hds & _).
  destruct (xdigits_plain _ Hds) as [Hdc Hdn].
  assert (Hnum : scan_x (pre ++ fmt_x v ++ nl) = Some (to_uint v)).
  { destruct (scan_x_fmt_x v nl Hend) as (H1 & H2 & _).
    destruct Hpre as [-> | ->]; [exact H1 | exact H2]. }
  assert (Hscan : sscanf_path_x (MAXIMUM_PATH B) ln = Some (path, to_uint v)).
  { unfold ln, sscanf_path_x.
    change (path ++ ";" ++ pre ++ fmt_x v ++ nl)
      with (path ++ String ";" (pre ++ fmt_x v ++ nl)).
    rewrite scanset_not_semi_path by (auto; lia).
    destruct path; [congruence|]. simpl. now rewrite Hnum. }
  assert (Hpc : is_c_string pre /\ all_chars not_newline pre = true)
    by (destruct Hpre as [-> | ->]; split; reflexivity).
  destruct Hpc as [Hpc Hpn].
  assert (Hline : is_line (MAXIMUM_PATH B * 2 - 1) ln).
  { exists (path ++ ";" ++ pre ++ fmt_x v). split; [|split; [|exact Hfit]].
    - unfold ln. now rewrite !append_assoc.
    - rewrite !all_chars_app, Hnl, Hpn, Hdn. reflexivity. }
  assert (Hc : is_c_string ln).
  { unfold ln. repeat apply is_c_string_app; auto; reflexivity. }
  assert (Hns : ln <> sentinel)
    by (apply path_line_not_sentinel; assumption).
  split; [exact Hscan|].
  rewrite (batch_loop_line B E k o s ln rest Heof Hbuf Hline Hc).
  apply String.eqb_neq in Hns. rewrite Hns.
  pose proof (batch_line_run B E o ln (after_read E s rest)) as Hrun.
  rewrite Hscan in Hrun. destruct Hrun as (t & Hrun & Ht). rewrite Hrun.
  match goal with
  | |- context [batch_loop B E k o ?s1] =>
      exists (to_uint v), t, s1;
      destruct (batch_loop B E k o s1) as [[u t2] s2] eqn:Hloop
  end.
  unfold events_of, after_read.
  cbn [fst snd app stdin_buf stdin_eof].
  rewrite <- app_assoc. repeat split; auto.
Qed.

(** *** The module path *)

(** X17. The module given with [-e].  On POSIX the path is accepted when
    the file exists and is handed to the library as typed.  On Windows
    it is accepted when [GetFullPathName] answers a length between 1
    and [MAXIMUM_PATH - 2] and the full path is readable, and it is the
    full path that is handed to the library.  In an address run every
    lookup is made on the path so obtained. *)
Theorem module_path_looked_up (p d : string) :
  (WINDOWS B = false ->
   (resolve_module B E p = Some d <-> dr_file_exists E p = true /\ d = p)) /\
  (WINDOWS B = true ->
   (resolve_module B E p = Some d <->
    0 < fst (GetFullPathName E p (MAXIMUM_PATH B))
      < Z.of_nat (MAXIMUM_PATH B) - 1 /\
    _access E (snd (GetFullPathName E p (MAXIMUM_PATH B))) 4 <> -1 /\
    d = snd (GetFullPathName E p (MAXIMUM_PATH B)))) /\
  (forall mypath pre o1 a queries input (l : lib_state E),
     parse_args B E mypath pre initial_options = Parsed o1 [] ->
     addr2sym_multi o1 = false -> enum_lines o1 = false ->
     enumerate_all o1 = false ->
     _stricmp a "-e" = 0 ->
     resolve_module B E p = Some d ->
     queries <> [] ->
     fst (lib_init E l) = DRSYM_SUCCESS B ->
     lookups (trace B E (mypath :: pre ++ a :: p :: "-a" :: queries) input l)
     = map (pair d) (scanned queries)).
Proof.
  split; [|split].
  - intros Hw. unfold resolve_module. rewrite Hw.
    destruct (dr_file_exists E p); cbn [negb]; split.
    + intros H. injection H as <-. auto.
    + intros [_ ->]. reflexivity.
    + discriminate.
    + intros [H _]. discriminate.
  - intros Hw. unfold resolve_module. rewrite Hw.
    destruct (GetFullPathName E p (MAXIMUM_PATH B)) as [res full].
    cbn [fst snd].
    destruct (res <=? 0) eqn:H1; cbn [orb].
    { apply Z.leb_le in H1. split; [discriminate|]. intros [H _]. lia. }
    destruct (Z.of_nat (MAXIMUM_PATH B) - 1 <=? res) eqn:H2; cbn [orb].
    { apply Z.leb_le in H2. split; [discriminate|]. intros [H _]. lia. }
    apply Z.leb_gt in H1, H2.
    destruct (_access E full 4 =? -1) eqn:H3.
    { apply Z.eqb_eq in H3. split; [discriminate|]. intros (_ & H & _).
      congruence. }
    apply Z.eqb_neq in H3. split.
    + intros H. injection H as <-. repeat split; auto; lia.
    + intros (_ & _ & ->). reflexivity.
  - intros mypath pre o1 a queries input l Hpre Hm Hl Hall Ha Hres Hq Hinit.
    destruct queries as [|q qs]; [congruence|].
    set (o := set_addr2sym (set_dll d o1)).
    assert (Hparse :
      parse_args B E (hd EmptyString (mypath :: pre ++ a :: p :: "-a" :: q :: qs))
        (tl (mypath :: pre ++ a :: p :: "-a" :: q :: qs)) initial_options
      = Parsed o (q :: qs)).
    { cbn [hd tl]. rewrite (parse_args_app _ _ _ _ _ _ _ Hpre).
      cbn [parse_args]. apply Z.eqb_eq in Ha. rewrite Ha, Hres.
      reflexivity. }
    assert (Hvalid : invalid_options o = false).
    { unfold invalid_options, o. cbn. rewrite Hm. cbn.
      now rewrite andb_false_r. }
    pose proof (run_completed B E _ input l o (q :: qs) Hparse Hvalid Hinit)
      as Hrun.
    unfold trace. rewrite Hrun. cbn [snd app lookups].
    rewrite lookups_app. cbn [lookups].
    unfold teardown_warning.
    match goal with
    | |- context [if ?c then _ else _] => destruct c
    end; cbn [lookups]; rewrite app_nil_r;
      unfold dispatch, o; cbn [addr2sym_multi enum_lines enumerate_all
                               set_addr2sym set_dll];
      rewrite Hm, Hl, Hall; cbn [negb];
      apply query_loop_lookups; reflexivity.
Qed.

(** *** Library calls of the handlers *)

Lemma calls_app (t u : list event) : calls (t ++ u) = (calls t ++ calls u)%list.
Proof.
  induction t as [|e t IH]; [reflexivity|].
  destruct e; cbn [app calls]; now rewrite IH.
Qed.

Lemma calls_printf (t : list event) :
  forallb is_printf t = true -> calls t = [].
Proof.
  induction t as [|e t IH]; [reflexivity|].
  destruct e; simpl; try discriminate. exact IH.
Qed.

Lemma calls_map_Printf (l : list string) : calls (map Printf l) = [].
Proof. induction l; simpl; congruence. Qed.

Lemma iterate_search_cb_calls (data : option string)
  (items : list (drsym_info_t * Z)) (s : state E) :
  calls (events_of (iterate E (fun p => search_cb E (fst p) (snd p) data)
                      items s)) = [] /\
  state_of (iterate E (fun p => search_cb E (fst p) (snd p) data) items s) = s.
Proof.
  induction items as [|x items [IH1 IH2]]; [split; reflexivity|].
  cbn [iterate]. rewrite events_bind, state_bind.
  assert (Hcb : search_cb E (fst x) (snd x) data s =
                (true,
                 if match data with
                    | None => true
                    | Some m => strcmp (name (fst x)) m =? 0
                    end
                 then [Printf (symbol_line (fst x))] else [], s)).
  { unfold search_cb, bind, when, printf, emit, ret.
    now destruct (match data with
                  | None => true
                  | Some m => strcmp (name (fst x)) m =? 0
                  end). }
  rewrite Hcb. cbn [value_of state_of events_of fst snd].
  rewrite calls_app, IH1, IH2.
  split; [|reflexivity].
  now destruct (match data with
                | None => true
                | Some m => strcmp (name (fst x)) m =? 0
                end).
Qed.

Lemma get_and_print_debug_kind_run (dllpath : string) (s : state E) :
  get_and_print_debug_kind B E dllpath s =
  (tt,
   Call (Cget_module_debug_kind dllpath) ::
   (if fst (fst (lib_get_module_debug_kind E dllpath (lib E s)))
       =? DRSYM_SUCCESS B
    then [Printf (debug_kind_text B
                    (snd (fst (lib_get_module_debug_kind E dllpath (lib E s)))))]
    else []),
   {| stdin_buf := stdin_buf E s; stdin_eof := stdin_eof E s;
      lib := snd (lib_get_module_debug_kind E dllpath (lib E s)) |}).
Proof.
  unfold get_and_print_debug_kind, drsym_get_module_debug_kind, call, bind,
    when, print_debug_kind, printf, emit, ret.
  destruct (lib_get_module_debug_kind E dllpath (lib E s)) as [[r k] l'].
  cbn [fst snd]. now destruct (r =? DRSYM_SUCCESS B).
Qed.

(** X18. What a query costs in library calls.  An address lookup is one
    call, verbose or not: the debug kind it shows comes with the answer.
    A symbol lookup, a symbol enumeration and a line enumeration are one
    call, preceded in verbose mode by one query of the debug kind of the
    module; when that query fails no debug line is printed and the
    lookup or enumeration is made all the same. *)
Theorem library_calls_per_query (o : options) (dllpath : string) (s : state E) :
  let debug := if verbose o then [Cget_module_debug_kind dllpath] else [] in
  (forall modoffs,
     calls (events_of (lookup_address B E o dllpath modoffs s))
     = [Clookup_address dllpath modoffs]) /\
  (forall sym,
     calls (events_of (lookup_symbol B E o dllpath sym s))
     = (debug ++ [Clookup_symbol dllpath sym])%list) /\
  (forall pat search searchall,
     calls (events_of (enumerate_symbols B E o dllpath pat search searchall s))
     = (debug ++
        [if WINDOWS B && search
         then Csearch_symbols dllpath pat searchall
         else Cenumerate_symbols dllpath])%list) /\
  calls (events_of (enumerate_lines B E o dllpath s))
  = (debug ++ [Cenumerate_lines dllpath])%list /\
  (fst (fst (lib_get_module_debug_kind E dllpath (lib E s))) <> DRSYM_SUCCESS B ->
   printed (events_of (get_and_print_debug_kind B E dllpath s)) = []).
Proof.
  intros debug.
  assert (Hpre : forall s0 : state E,
    calls (events_of (when E (verbose o)
                        (get_and_print_debug_kind B E dllpath) s0)) = debug).
  { intros s0. subst debug. destruct (verbose o); [|reflexivity].
    cbn [when]. rewrite get_and_print_debug_kind_run.
    cbn [events_of fst snd calls].
    now destruct (_ =? DRSYM_SUCCESS B). }
  split; [|split; [|split; [|split]]].
  - intros modoffs.
    destruct (lookup_address_run B E o dllpath modoffs s) as (t & -> & Ht).
    cbn [events_of fst snd calls]. now rewrite (calls_printf t Ht).
  - intros sym. unfold lookup_symbol.
    rewrite events_bind, calls_app, Hpre. f_equal.
    rewrite events_bind, calls_app.
    unfold drsym_lookup_symbol, call.
    destruct (lib_lookup_symbol E dllpath sym _) as [[r i] l'].
    cbn [events_of value_of state_of fst snd calls].
    destruct ((r =? DRSYM_SUCCESS B)
              || (r =? DRSYM_ERROR_LINE_NOT_AVAILABLE B)); [reflexivity|].
    now destruct (verbose o).
  - intros pat search searchall. unfold enumerate_symbols.
    rewrite events_bind, calls_app, Hpre. f_equal.
    rewrite events_bind, calls_app.
    assert (Hwhen : forall b str (s0 : state E),
              calls (events_of (when E b (printf E str) s0)) = []).
    { intros [|] str s0; reflexivity. }
    rewrite Hwhen, app_nil_r.
    destruct (WINDOWS B && search).
    + unfold drsym_search_symbols_ex.
      rewrite events_bind, calls_app. unfold call at 1.
      destruct (lib_search_symbols E dllpath pat searchall _) as [[l r] l'].
      cbn [events_of value_of state_of fst snd calls].
      rewrite events_bind, calls_app.
      rewrite (proj1 (iterate_search_cb_calls _ _ _)). reflexivity.
    + unfold drsym_enumerate_symbols_ex.
      rewrite events_bind, calls_app. unfold call at 1.
      destruct (lib_enumerate_symbols E dllpath _) as [[l r] l'].
      cbn [events_of value_of state_of fst snd calls].
      rewrite events_bind, calls_app.
      rewrite (proj1 (iterate_search_cb_calls _ _ _)). reflexivity.
  - unfold enumerate_lines.
    rewrite events_bind, calls_app, Hpre. f_equal.
    rewrite events_bind, calls_app.
    assert (Hwhen : forall b str (s0 : state E),
              calls (events_of (when E b (printf E str) s0)) = []).
    { intros [|] str s0; reflexivity. }
    rewrite Hwhen, app_nil_r.
    unfold drsym_enumerate_lines.
    rewrite events_bind, calls_app. unfold call at 1.
    destruct (lib_enumerate_lines E dllpath _) as [[l r] l'].
    cbn [events_of value_of state_of fst snd calls].
    rewrite events_bind, calls_app, iterate_enum_line_cb.
    cbn [events_of fst snd calls]. now rewrite calls_map_Printf.
  - intros Hfail. rewrite get_and_print_debug_kind_run.
    apply Z.eqb_neq in Hfail. now rewrite Hfail.
Qed.

End Further.

(** ** The further properties at work on the samples *)

Lemma single_module_run_is_quiet_witness :
  forallb quiet_event
    (trace build_linux sample ["symquery"; "-e"; "a.dll"; "-a"; "10"; "zz"]
       ("a.dll;10" ++ nl) tt) = true.
Proof.
  apply (single_module_run_is_quiet build_linux sample).
  intros o rest H. vm_compute in H. injection H as <- _. reflexivity.
Defined.

Lemma init_failure_is_fatal_witness :
  run build_linux (sample_env 3 0) ["symquery"; "-q"] ("a.dll;10" ++ nl) tt =
  (1, [Call Cstandalone_init; Call Cinit;
       Printf ("ERROR: unable to initialize symbol library" ++ nl)]).
Proof.
  apply (init_failure_is_fatal build_linux (sample_env 3 0)
           ["symquery"; "-q"] ("a.dll;10" ++ nl) tt
           (set_addr2sym_multi initial_options) [] eq_refl eq_refl).
  discriminate.
Defined.

Lemma enumerate_lines_report_witness :
  printed
    (events_of
       (enumerate_lines build_linux sample_wild initial_options "a.dll"
          (initial_state sample_wild "" tt)))
  = [("cu=" ++ dq ++ "a.c" ++ dq ++ ", file=" ++ dq ++ "a.c" ++ dq ++
      " line=10, addr=0x00000010" ++ nl)%string;
     ("cu=" ++ dq ++ "<null>" ++ dq ++ ", file=" ++ dq ++ "<null>" ++ dq ++
      " line=0, addr=0x00000000" ++ nl)%string].
Proof.
  destruct (enumerate_lines_report build_linux sample_wild initial_options
              "a.dll" (initial_state sample_wild "" tt)) as (_ & H & _).
  exact (H eq_refl).
Defined.

Lemma windows_search_prints_all_witness :
  events_of
    (enumerate_symbols build_windows sample_wild initial_options "a.dll"
       (Some "*") true false (initial_state sample_wild "" tt))
  = [Call (Csearch_symbols "a.dll" (Some "*") false);
     Printf ("_start +0x0-0x10" ++ nl); Printf ("main +0x10-0x30" ++ nl)].
Proof.
  exact (windows_search_prints_all build_windows sample_wild initial_options
           "a.dll" (Some "*") false (initial_state sample_wild "" tt)
           eq_refl eq_refl).
Defined.


Lemma flags_ignore_case_witness :
  parse_args build_linux sample "symquery" ["--LiSt"; "-e"; "a.dll"]
    initial_options
  = Parsed (set_dll "a.dll" (set_enumerate_all initial_options)) [].
Proof.
  rewrite (flags_ignore_case build_linux sample "symquery" "--LiSt" "--list"
             ["-e"; "a.dll"] initial_options eq_refl).
  reflexivity.
Defined.

Lemma unknown_flag_rejected_witness :
  run build_linux sample ["symquery"; "-e"; "a.dll"; "--help"; "-a"; "10"] "" tt
  = (1, PRINT_USAGE build_linux "symquery").
Proof.
  exact (unknown_flag_rejected build_linux sample "symquery" ["-e"; "a.dll"]
           (set_dll "a.dll" initial_options) "--help" ["-a"; "10"] "" tt
           eq_refl eq_refl).
Defined.

Lemma simple_flags_accumulate_witness :
  parse_args build_linux sample "symquery" ["-V"; "--searchall"; "-v"]
    initial_options
  = Parsed (with_flags ["-V"; "--searchall"; "-v"] initial_options) [] /\
  parse_args build_linux sample "symquery" ["--searchall"; "-V"; "-v"]
    initial_options
  = parse_args build_linux sample "symquery" ["-V"; "--searchall"; "-v"]
      initial_options /\
  search (with_flags ["-V"; "--searchall"; "-v"] initial_options) = true.
Proof.
  destruct (simple_flags_accumulate build_linux sample "symquery"
              ["-V"; "--searchall"; "-v"] ["--searchall"; "-V"; "-v"]
              initial_options) as [H1 H2].
  - repeat constructor.
  - apply perm_swap.
  - split; [exact H1|]. split; [exact H2|reflexivity].
Defined.

Lemma address_queries_lookups_witness :
  map fst
    (lookups
       (events_of
          (query_loop build_linux sample (set_addr2sym initial_options) "a.dll"
             ["10"; "zz"; "0x5"] (initial_state sample "" tt))))
  = ["a.dll"; "a.dll"] /\
  query build_linux sample (set_addr2sym initial_options) "a.dll" "zz"
    (initial_state sample "" tt)
  = (tt, [Printf ("ERROR: unknown input zz" ++ nl)], initial_state sample "" tt).
Proof.
  destruct (address_queries_lookups build_linux sample
              (set_addr2sym initial_options) "a.dll" ["10"; "zz"; "0x5"]
              (initial_state sample "" tt) eq_refl) as [H1 H2].
  split; [exact H1|]. exact (H2 "zz" (initial_state sample "" tt) eq_refl).
Defined.

Lemma batch_reads_lines_witness :
  let s := initial_state sample
             ("a.dll;10" ++ nl ++ "junk" ++ nl ++ ";exit" ++ nl ++
              "a.dll;5" ++ nl) tt in
  let r := batch_loop build_linux sample 3 initial_options s in
  reads (events_of r) = [("a.dll;10" ++ nl)%string; ("junk" ++ nl)%string;
                         sentinel] /\
  stdin_buf sample (state_of r) = "a.dll;5" ++ nl.
Proof.
  intros s r.
  assert (Hline : forall body,
    all_chars not_newline body = true ->
    (String.length (body ++ nl) <= MAXIMUM_PATH build_linux * 2 - 1)%nat ->
    is_line (MAXIMUM_PATH build_linux * 2 - 1) (body ++ nl)).
  { intros body Hb Hl. exists body. auto. }
  destruct (batch_reads_lines build_linux sample initial_options
              [("a.dll;10" ++ nl)%string; ("junk" ++ nl)%string]) with (n := 3%nat) (s := s)
    as [H _].
  - simpl. lia.
  - repeat constructor;
      try (apply Hline; [reflexivity | simpl; lia]); discriminate.
  - simpl. lia.
  - reflexivity.
  - apply (H ("a.dll;5" ++ nl)). reflexivity.
Defined.

Lemma unterminated_last_line_witness :
  events_of
    (batch_loop build_linux sample 1 initial_options
       (initial_state sample "a.dll;5" tt))
  = [Fgets (Some "a.dll;5"); Call (Clookup_address "a.dll" 5);
     Printf ("??:0" ++ nl); Fflush].
Proof.
  apply (unterminated_last_line build_linux sample initial_options 0
           (initial_state sample "a.dll;5" tt) "a.dll;5").
  - reflexivity.
  - reflexivity.
  - discriminate.
  - reflexivity.
  - simpl. lia.
Defined.


Lemma printed_offset_reads_back_witness :
  exists ln,
    printed
      (events_of
         (lookup_symbol build_linux sample initial_options "a.dll" "main"
            (initial_state sample "" tt))) = [ln] /\
    ln = "+0x10" ++ nl /\
    scan_x ln = Some 16 /\
    map fst
      (lookups
         (events_of
            (query build_linux sample (set_addr2sym initial_options) "a.dll" ln
               (initial_state sample "" tt))))
    = ["a.dll"].
Proof.
  destruct (printed_offset_reads_back build_linux sample initial_options
              (set_addr2sym initial_options) "a.dll" "main"
              (initial_state sample "" tt) 16 eq_refl eq_refl eq_refl)
    as (ln & Hout & Hln & Hscan & Hback).
  exists ln. split; [exact Hout|]. split; [exact Hln|].
  split; [exact Hscan|]. exact (Hback "a.dll" (initial_state sample "" tt)).
Defined.

Lemma request_round_trip_witness :
  sscanf_path_x 260 ("a.dll" ++ ";" ++ "0x" ++ fmt_x 20 ++ nl)
  = Some ("a.dll", 20) /\
  exists a t s1,
    events_of
      (batch_loop build_linux sample 1 initial_options
         (initial_state sample
            (("a.dll" ++ ";" ++ "0x" ++ fmt_x 20 ++ nl) ++ "rest") tt))
    = Fgets (Some ("a.dll" ++ ";" ++ "0x" ++ fmt_x 20 ++ nl)) ::
      Call (Clookup_address "a.dll" a) ::
      (t ++ Fflush ::
       events_of (batch_loop build_linux sample 0 initial_options s1))%list /\
    forallb is_printf t = true /\
    stdin_buf sample s1 = "rest" /\ stdin_eof sample s1 = false.
Proof.
  apply (request_round_trip build_linux sample initial_options 0
           (initial_state sample
              (("a.dll" ++ ";" ++ "0x" ++ fmt_x 20 ++ nl) ++ "rest") tt)
           "a.dll" "0x" 20 "rest").
  - discriminate.
  - simpl. lia.
  - reflexivity.
  - reflexivity.
  - reflexivity.
  - now right.
  - apply Nat.leb_le. vm_compute. reflexivity.
  - reflexivity.
  - reflexivity.
Defined.

Lemma module_path_looked_up_witness :
  resolve_module build_windows sample "a.dll" = Some "C:\a.dll" /\
  lookups
    (trace build_windows sample
       ("symquery" :: ["-f"] ++ "-E" :: "a.dll" :: "-a" :: ["10"; "zz"; "5"])
       "" tt)
  = [("C:\a.dll", 16); ("C:\a.dll", 5)].
Proof.
  destruct (module_path_looked_up build_windows sample "a.dll" "C:\a.dll")
    as (_ & Hwin & Hrun).
  assert (Hres : resolve_module build_windows sample "a.dll" = Some "C:\a.dll").
  { apply (Hwin eq_refl). repeat split; try reflexivity. discriminate. }
  split; [exact Hres|].
  apply (Hrun "symquery" ["-f"] (set_show_func initial_options) "-E"
           ["10"; "zz"; "5"] "" tt eq_refl eq_refl eq_refl eq_refl eq_refl Hres);
    [discriminate|reflexivity].
Defined.

Lemma library_calls_per_query_witness :
  calls
    (events_of
       (lookup_symbol build_linux sample (set_verbose initial_options)
          "gone.dll" "main" (initial_state sample "" tt)))
  = [Cget_module_debug_kind "gone.dll"; Clookup_symbol "gone.dll" "main"] /\
  printed
    (events_of
       (get_and_print_debug_kind build_linux sample "gone.dll"
          (initial_state sample "" tt)))
  = [] /\
  calls
    (events_of
       (lookup_address build_linux sample (set_verbose initial_options)
          "a.dll" 20 (initial_state sample "" tt)))
  = [Clookup_address "a.dll" 20].
Proof.
  destruct (library_calls_per_query build_linux sample
              (set_verbose initial_options) "gone.dll"
              (initial_state sample "" tt)) as (_ & Hsym & _ & _ & Hfail).
  destruct (library_calls_per_query build_linux sample
              (set_verbose initial_options) "a.dll"
              (initial_state sample "" tt)) as (Haddr & _).
  split; [exact (Hsym "main")|]. split; [|exact (Haddr 20)].
  apply Hfail. discriminate.
Defined.

(** ** Where the batch reader and the module check part from their
       description *)


